(** * Dependency mapping engine of skills/01_code_understanding/map_dependencies/main.py

    A shallow embedding of the import extractors, the dependency classifier,
    the graph builder, the cycle detector and the report assembly.

    Modelling conventions:
    - Python [str] values are Rocq [string]s; file texts are ASCII, so the
      regular expressions' classes are read on ASCII characters: [\w] is
      [A-Za-z0-9_] and [\s] is the set Python's [str.isspace] accepts
      (tab to carriage return, 0x1c to 0x1f, and space).
    - A Python exception is the [Raise] case of [outcome].
    - A Python [set] is the list of its elements in insertion order; its
      iteration order is the section variable [set_iter], any permutation.
    - A Python [dict] is an association list in insertion order.
    - The file system and [ast.parse] are the environment of the engine:
      a record [FileSystem] and the section variable [ast_parse].
    - Python's recursion limit is the section variable [recursion_room]:
      how many nested calls of the recursive [dfs] fit on the stack. *)

From Stdlib Require Import String Ascii List Bool Arith Lia Permutation Sorting.Sorted.
From Stdlib Require Import Numbers.DecimalString ZArith.
Import ListNotations.
Open Scope string_scope.
Open Scope list_scope.
Open Scope nat_scope.

(** ** Python runtime: exceptions and results *)

Inductive exn : Type :=
| SyntaxError
| ValueError
| RecursionError
| OSError.

Inductive outcome (A : Type) : Type :=
| Done (a : A)
| Raise (e : exn).
Arguments Done {A} a.
Arguments Raise {A} e.

Definition obind {A B} (m : outcome A) (k : A -> outcome B) : outcome B :=
  match m with
  | Done a => k a
  | Raise e => Raise e
  end.

Notation "x <- m ;; k" := (obind m (fun x => k))
  (at level 61, m at next level, right associativity).

Fixpoint omap {A B} (f : A -> outcome B) (l : list A) : outcome (list B) :=
  match l with
  | [] => Done []
  | x :: l' => y <- f x ;; ys <- omap f l' ;; Done (y :: ys)
  end.

(** ** Python string helpers *)

(** [s.startswith(p)] *)
Definition startswith (s p : string) : bool := String.prefix p s.

(** [x in xs] for a list or set of strings *)
Definition mem (x : string) (xs : list string) : bool :=
  existsb (String.eqb x) xs.

(** [x in s] for strings, [s] containing the one-character string [x] *)
Definition contains_char (c : ascii) (s : string) : bool :=
  existsb (Ascii.eqb c) (list_ascii_of_string s).

(** [s.split(sep)[0]] for a one-character separator *)
Fixpoint split_first (sep : ascii) (s : string) : string :=
  match s with
  | EmptyString => EmptyString
  | String c s' => if Ascii.eqb c sep then EmptyString
                   else String c (split_first sep s')
  end.

(** [s.split(sep)] for a one-character separator *)
Fixpoint split_on (sep : ascii) (s : string) : list string :=
  match s with
  | EmptyString => [EmptyString]
  | String c s' =>
      if Ascii.eqb c sep then EmptyString :: split_on sep s'
      else match split_on sep s' with
           | [] => [String c EmptyString]
           | w :: ws => String c w :: ws
           end
  end.

(** ** Dependency classification *)

Definition PYTHON_STDLIB : list string :=
  ["os"; "sys"; "re"; "json"; "time"; "datetime"; "pathlib"; "collections";
   "itertools"; "functools"; "typing"; "abc"; "ast"; "io"; "math"; "random";
   "subprocess"; "threading"; "multiprocessing"; "logging"; "unittest";
   "argparse"; "configparser"; "dataclasses"; "enum"; "copy"; "hashlib";
   "base64"; "urllib"; "http"; "socket"; "email"; "html"; "xml"; "sqlite3"].

Definition JAVASCRIPT_BUILTIN : list string :=
  ["fs"; "path"; "http"; "https"; "crypto"; "os"; "child_process"; "events";
   "stream"; "util"; "url"; "querystring"; "assert"; "buffer"; "cluster";
   "dns"; "net"; "process"; "readline"; "tls"; "vm"; "zlib"].

(** The [language] of a request is [Optional[str]]: [None] is [None]. *)
Definition lang_is (language : option string) (s : string) : bool :=
  match language with
  | Some l => String.eqb l s
  | None => false
  end.

(** [is_external_dependency(module, language, source_file)] *)
Definition is_external_dependency (module : string) (language : option string)
    (source_file : string) : bool :=
  if startswith module "." then false
  else if lang_is language "python" then
    let root_module := split_first "." module in
    negb (mem root_module PYTHON_STDLIB)
  else if lang_is language "javascript" || lang_is language "typescript" then
    if startswith module "." || startswith module "/" then false
    else if mem module JAVASCRIPT_BUILTIN || startswith module "node:" then true
    else true
  else if lang_is language "java" then
    negb (startswith module "java." || startswith module "javax.")
  else if lang_is language "go" then
    contains_char "." module || contains_char "/" module
  else true.

(** ** Regular-expression extraction

    [re.finditer(pattern, code)] scans [code] left to right: it tries the
    pattern at each position, reports a match and resumes at its end, or
    moves one character on.  A pattern is a matcher that is told whether the
    position is at the start of a line (for [^] under [re.MULTILINE]) and
    returns its groups and the rest of the text. *)

Definition chars := list ascii.

Definition is_word (c : ascii) : bool :=
  let n := nat_of_ascii c in
  (65 <=? n) && (n <=? 90) || (97 <=? n) && (n <=? 122)
  || (48 <=? n) && (n <=? 57) || (n =? 95).

Definition is_space (c : ascii) : bool :=
  let n := nat_of_ascii c in
  (9 <=? n) && (n <=? 13) || (28 <=? n) && (n <=? 32).

Definition is_char (c : ascii) : ascii -> bool := Ascii.eqb c.

Definition Matcher (G : Type) := bool -> chars -> option (G * chars).

(** the longest prefix of characters of a class *)
Fixpoint span (p : ascii -> bool) (s : chars) : chars * chars :=
  match s with
  | c :: s' => if p c then let (a, b) := span p s' in (c :: a, b) else ([], s)
  | [] => ([], [])
  end.

(** [C+], greedy; followed by a character outside [C] it cannot backtrack *)
Definition plus (p : ascii -> bool) (s : chars) : option (chars * chars) :=
  match span p s with
  | ([], _) => None
  | r => Some r
  end.

(** a literal *)
Fixpoint lit (w : chars) (s : chars) : option chars :=
  match w, s with
  | [], _ => Some s
  | c :: w', d :: s' => if Ascii.eqb c d then lit w' s' else None
  | _ :: _, [] => None
  end.

Definition L (s : string) : chars := list_ascii_of_string s.
Definition S_ (s : chars) : string := string_of_list_ascii s.

Definition lits (w : string) := lit (L w).

Notation "' p <-? m ;;; k" := (match m with Some p => k | _ => None end)
  (at level 61, p pattern, m at next level, right associativity).

(** [\s+(C+)] where the class [C] contains [\s]: the greedy [\s+] gives its
    last character back when no character of [C] follows the spaces *)
Definition spaces_then_class (p : ascii -> bool) (s : chars) : option (chars * chars) :=
  let (ws, r) := span is_space s in
  match ws with
  | [] => None
  | _ =>
      match span p r with
      | ([], _) => if 2 <=? length ws then Some ([last ws " "%char], r) else None
      | (g, r') => Some (g, r')
      end
  end.

Fixpoint finditer_aux {G} (m : Matcher G) (fuel : nat) (bol : bool) (s : chars) : list G :=
  match fuel with
  | 0 => []
  | S f =>
      match m bol s with
      | Some (g, r) =>
          if length r <? length s then
            let consumed := firstn (length s - length r) s in
            g :: finditer_aux m f (Ascii.eqb (last consumed " "%char) "010"%char) r
          else
            g :: match s with
                 | [] => []
                 | c :: s' => finditer_aux m f (Ascii.eqb c "010"%char) s'
                 end
      | None =>
          match s with
          | [] => []
          | c :: s' => finditer_aux m f (Ascii.eqb c "010"%char) s'
          end
      end
  end.

Definition finditer {G} (m : Matcher G) (code : string) : list G :=
  let s := L code in finditer_aux m (S (length s)) true s.

(** [s.strip()] *)
Definition strip (s : string) : string :=
  let drop_sp := fun l => snd (span is_space l) in
  S_ (rev (drop_sp (rev (drop_sp (L s))))).

Record ImportRecord : Type := mkImport {
  imp_module : string;
  imp_type : string;
  imp_symbols : list string
}.

(** *** [parse_python_imports_regex] *)

(** [^import\s+([\w\.,\s]+)] *)
Definition py_import_pattern : Matcher chars := fun bol s =>
  if negb bol then None else
  ' r <-? lits "import" s ;;;
  spaces_then_class (fun c => is_word c || is_char "." c || is_char "," c || is_space c) r.

(** [^from\s+([\w\.]+)\s+import\s+([\w\*,\s]+)] *)
Definition py_from_pattern : Matcher (chars * chars) := fun bol s =>
  if negb bol then None else
  ' r <-? lits "from" s ;;;
  '(_, r) <-? plus is_space r ;;;
  '(g1, r) <-? plus (fun c => is_word c || is_char "." c) r ;;;
  '(_, r) <-? plus is_space r ;;;
  ' r <-? lits "import" r ;;;
  '(g2, r) <-? spaces_then_class (fun c => is_word c || is_char "*" c || is_char "," c || is_space c) r ;;;
  Some ((g1, g2), r).

Definition parse_python_imports_regex (code : string) : list ImportRecord :=
  let from_import :=
    flat_map (fun g =>
      let modules := map strip (split_on "," (S_ g)) in
      flat_map (fun module =>
        if String.eqb module EmptyString then []
        else [mkImport (split_first "." module) "direct" [module]]) modules)
      (finditer py_import_pattern code) in
  let from_from :=
    map (fun '(g1, g2) =>
      mkImport (S_ g1) "from" (map strip (split_on "," (S_ g2))))
      (finditer py_from_pattern code) in
  from_import ++ from_from.

(** *** [parse_js_imports] *)

Definition is_quote (c : ascii) : bool := is_char "'" c || is_char "034"%char c.
Definition not_quote (c : ascii) : bool := negb (is_quote c).

(** [['\x22]([^'\x22]+)['\x22]] *)
Definition quoted : chars -> option (chars * chars) := fun s =>
  match s with
  | q :: r =>
      if is_quote q then
        '(g, r) <-? plus not_quote r ;;;
        match r with
        | q' :: r => if is_quote q' then Some (g, r) else None
        | [] => None
        end
      else None
  | [] => None
  end.

(** [s.split(" as ")[0]] *)
Fixpoint before_as (s : chars) : chars :=
  match s with
  | [] => []
  | c :: s' =>
      match lits " as " s with
      | Some _ => []
      | None => c :: before_as s'
      end
  end.

(** [import\s+(\w+)\s+from\s+['\x22]([^'\x22]+)['\x22]] *)
Definition js_default_import : Matcher (chars * chars) := fun _ s =>
  ' r <-? lits "import" s ;;;
  '(_, r) <-? plus is_space r ;;;
  '(g1, r) <-? plus is_word r ;;;
  '(_, r) <-? plus is_space r ;;;
  ' r <-? lits "from" r ;;;
  '(_, r) <-? plus is_space r ;;;
  '(g2, r) <-? quoted r ;;;
  Some ((g1, g2), r).

(** [import\s+\{([^}]+)\}\s+from\s+['\x22]([^'\x22]+)['\x22]] *)
Definition js_named_import : Matcher (chars * chars) := fun _ s =>
  ' r <-? lits "import" s ;;;
  '(_, r) <-? plus is_space r ;;;
  ' r <-? lits "{" r ;;;
  '(g1, r) <-? plus (fun c => negb (is_char "}" c)) r ;;;
  ' r <-? lits "}" r ;;;
  '(_, r) <-? plus is_space r ;;;
  ' r <-? lits "from" r ;;;
  '(_, r) <-? plus is_space r ;;;
  '(g2, r) <-? quoted r ;;;
  Some ((g1, g2), r).

(** [import\s+\*\s+as\s+(\w+)\s+from\s+['\x22]([^'\x22]+)['\x22]] *)
Definition js_namespace_import : Matcher (chars * chars) := fun _ s =>
  ' r <-? lits "import" s ;;;
  '(_, r) <-? plus is_space r ;;;
  ' r <-? lits "*" r ;;;
  '(_, r) <-? plus is_space r ;;;
  ' r <-? lits "as" r ;;;
  '(_, r) <-? plus is_space r ;;;
  '(g1, r) <-? plus is_word r ;;;
  '(_, r) <-? plus is_space r ;;;
  ' r <-? lits "from" r ;;;
  '(_, r) <-? plus is_space r ;;;
  '(g2, r) <-? quoted r ;;;
  Some ((g1, g2), r).

(** [(?:const|let|var)\s+(\w+)\s*=\s*require\s*\(['\x22]([^'\x22]+)['\x22]\)] *)
Definition js_require_pattern : Matcher (chars * chars) := fun _ s =>
  ' r <-? match lits "const" s, lits "let" s, lits "var" s with
          | Some r, _, _ => Some r
          | None, Some r, _ => Some r
          | None, None, r => r
          end ;;;
  '(_, r) <-? plus is_space r ;;;
  '(g1, r) <-? plus is_word r ;;;
  let r := snd (span is_space r) in
  ' r <-? lits "=" r ;;;
  let r := snd (span is_space r) in
  ' r <-? lits "require" r ;;;
  let r := snd (span is_space r) in
  ' r <-? lits "(" r ;;;
  '(g2, r) <-? quoted r ;;;
  ' r <-? lits ")" r ;;;
  Some ((g1, g2), r).

(** [import\s*\(['\x22]([^'\x22]+)['\x22]\)] *)
Definition js_dynamic_import : Matcher chars := fun _ s =>
  ' r <-? lits "import" s ;;;
  let r := snd (span is_space r) in
  ' r <-? lits "(" r ;;;
  '(g1, r) <-? quoted r ;;;
  ' r <-? lits ")" r ;;;
  Some (g1, r).

Definition parse_js_imports (code : string) : list ImportRecord :=
  map (fun '(g1, g2) => mkImport (S_ g2) "default" [S_ g1])
      (finditer js_default_import code)
  ++ map (fun '(g1, g2) =>
            mkImport (S_ g2) "named"
              (map (fun s => S_ (before_as (L (strip s)))) (split_on "," (S_ g1))))
      (finditer js_named_import code)
  ++ map (fun '(g1, g2) => mkImport (S_ g2) "namespace" [S_ g1])
      (finditer js_namespace_import code)
  ++ map (fun '(g1, g2) => mkImport (S_ g2) "require" [S_ g1])
      (finditer js_require_pattern code)
  ++ map (fun g1 => mkImport (S_ g1) "dynamic" [])
      (finditer js_dynamic_import code).

(** *** [parse_java_imports] *)

(** [([\w\.]+)(?:\.[*])?;]: the greedy group gives back a final [.] when
    [*;] follows it *)
Definition java_tail (s : chars) : option (chars * chars) :=
  '(g, r) <-? plus (fun c => is_word c || is_char "." c) s ;;;
  match r with
  | ";"%char :: r' => Some (g, r')
  | "*"%char :: ";"%char :: r' =>
      if (2 <=? length g) && Ascii.eqb (last g " "%char) "." then
        Some (removelast g, r')
      else None
  | _ => None
  end.

(** [import\s+(?:static\s+)?([\w\.]+)(?:\.[*])?;]; the groups are the
    whole match and group 1 *)
Definition java_import_pattern : Matcher (chars * chars) := fun _ s =>
  ' r <-? lits "import" s ;;;
  '(_, r) <-? plus is_space r ;;;
  let with_static :=
    ' r' <-? lits "static" r ;;;
    '(_, r') <-? plus is_space r' ;;;
    java_tail r' in
  '(g, r) <-? match with_static with
              | Some x => Some x
              | None => java_tail r
              end ;;;
  Some ((firstn (length s - length r) s, g), r).

(** [sub in s] *)
Fixpoint contains_sub (sub s : chars) : bool :=
  match lit sub s with
  | Some _ => true
  | None => match s with [] => false | _ :: s' => contains_sub sub s' end
  end.

Definition parse_java_imports (code : string) : list ImportRecord :=
  map (fun '(g0, g1) =>
         let full_import := S_ g1 in
         let is_static := contains_sub (L "static") g0 in
         let import_type := if is_static then "static" else "direct" in
         let parts := split_on "." full_import in
         let symbol := last parts full_import in
         mkImport full_import import_type [symbol])
      (finditer java_import_pattern code).

(** *** [parse_go_imports] *)

Definition not_dquote (c : ascii) : bool := negb (is_char "034"%char c).

(** [\x22([^\x22]+)\x22] *)
Definition dquoted (s : chars) : option (chars * chars) :=
  ' r <-? lit ["034"%char] s ;;;
  '(g, r) <-? plus not_dquote r ;;;
  ' r <-? lit ["034"%char] r ;;;
  Some (g, r).

(** [import\s+\x22([^\x22]+)\x22] *)
Definition go_single_import : Matcher chars := fun _ s =>
  ' r <-? lits "import" s ;;;
  '(_, r) <-? plus is_space r ;;;
  dquoted r.

(** [import\s*\(([\s\S]*?)\)]: the lazy group ends at the first [)] *)
Definition go_block_pattern : Matcher chars := fun _ s =>
  ' r <-? lits "import" s ;;;
  let r := snd (span is_space r) in
  ' r <-? lits "(" r ;;;
  '(g, r) <-? Some (span (fun c => negb (is_char ")" c)) r) ;;;
  ' r <-? lits ")" r ;;;
  Some (g, r).

(** [(?:(\w+)\s+)?\x22([^\x22]+)\x22] *)
Definition go_line_pattern : Matcher (option chars * chars) := fun _ s =>
  let aliased :=
    '(a, r) <-? plus is_word s ;;;
    '(_, r) <-? plus is_space r ;;;
    '(p, r) <-? dquoted r ;;;
    Some ((Some a, p), r) in
  match aliased with
  | Some x => Some x
  | None => '(p, r) <-? dquoted s ;;; Some ((None, p), r)
  end.

Definition parse_go_imports (code : string) : list ImportRecord :=
  map (fun g => mkImport (S_ g) "direct" []) (finditer go_single_import code)
  ++ flat_map (fun block =>
       map (fun '(alias, path) =>
              let alias := match alias with Some a => S_ a | None => EmptyString end in
              let import_type := if String.eqb alias EmptyString then "direct" else "aliased" in
              mkImport (S_ path) import_type
                (if String.eqb alias EmptyString then [] else [alias]))
           (finditer go_line_pattern (S_ block)))
     (finditer go_block_pattern code).

(** *** [parse_python_imports]: the structured strategy

    The statements of a Python module as [ast.parse] returns them: imports
    with their aliases [(name, asname)], and any other statement with the
    statements nested in it (bodies of functions, classes, branches). *)

#[local] Set Warnings "-register-all".
Inductive pystmt : Type :=
| Import (names : list (string * option string))
| ImportFrom (module : option string) (names : list (string * option string)) (level : nat)
| OtherStmt (body : list pystmt).

(** [PythonImportVisitor]: [visit_Import], [visit_ImportFrom] and the
    pre-order [generic_visit] over nested statements *)
Fixpoint visit_stmt (st : pystmt) : list ImportRecord :=
  match st with
  | Import names =>
      map (fun '(name, asname) =>
             mkImport name "direct" [match asname with Some a => a | None => name end])
          names
  | ImportFrom module names _ =>
      [mkImport (match module with Some m => m | None => EmptyString end) "from"
                (map fst names)]
  | OtherStmt body =>
      (fix visit_body (b : list pystmt) : list ImportRecord :=
         match b with
         | [] => []
         | s :: b' => visit_stmt s ++ visit_body b'
         end) body
  end.

Definition visit_module (tree : list pystmt) : list ImportRecord :=
  flat_map visit_stmt tree.

(** ** Language detection and source files *)

Definition EXTENSION_TO_LANGUAGE : list (string * string) :=
  [(".py", "python"); (".js", "javascript"); (".mjs", "javascript");
   (".cjs", "javascript"); (".jsx", "javascript"); (".ts", "typescript");
   (".tsx", "typescript"); (".java", "java"); (".go", "go")].

Definition lower_char (c : ascii) : ascii :=
  let n := nat_of_ascii c in
  if (65 <=? n) && (n <=? 90) then ascii_of_nat (n + 32) else c.

(** [Path(p).suffix]: from the last [.] of the final component, when that
    [.] is neither its first nor its last character *)
Definition path_suffix (p : string) : string :=
  let name := L (last (split_on "/" p) EmptyString) in
  let fix last_dot (i : nat) (l : chars) (acc : option nat) : option nat :=
    match l with
    | [] => acc
    | c :: l' => last_dot (S i) l' (if Ascii.eqb c "." then Some i else acc)
    end in
  match last_dot 0 name None with
  | Some i => if (0 <? i) && (i <? length name - 1) then S_ (skipn i name) else EmptyString
  | None => EmptyString
  end.

Definition detect_language (file_path : string) : string :=
  let ext := S_ (map lower_char (L (path_suffix file_path))) in
  match find (fun '(e, _) => String.eqb e ext) EXTENSION_TO_LANGUAGE with
  | Some (_, lang) => lang
  | None => "unknown"
  end.

(** The file system as the engine observes it through [pathlib] and [open]. *)
Record FileSystem : Type := mkFS {
  fs_exists : string -> outcome bool;
    (* [Path(p).exists()]: [Raise OSError] when [os.stat(p)] fails with an
       errno other than ENOENT, ENOTDIR, EBADF and ELOOP, which it ignores *)
  fs_is_file : string -> bool;           (* [Path(p).is_file()] *)
  fs_is_dir : string -> bool;            (* [Path(p).is_dir()] *)
  fs_str : string -> string;             (* [str(Path(p))] *)
  fs_rglob : string -> string -> list string;
    (* [[str(f) for f in Path(d).rglob("*" + ext)]], in traversal order *)
  fs_read : string -> option string;
    (* [open(p, encoding="utf-8", errors="ignore").read()]; [None] when it raises *)
  fs_parent : string -> string;          (* [Path(p).parent] *)
  fs_relative_to : string -> string -> string
    (* [str(Path(p).relative_to(base))] for [p] below [base] *)
}.

Definition get_source_files (fs : FileSystem) (path : string) (language : option string)
    : list string :=
  if fs_is_file fs path then [fs_str fs path]
  else if negb (fs_is_dir fs path) then []
  else
    let extensions :=
      if lang_is language "auto" then map fst EXTENSION_TO_LANGUAGE
      else map fst (filter (fun '(_, lang) => lang_is language lang) EXTENSION_TO_LANGUAGE) in
    flat_map (fun ext => fs_rglob fs path ext) extensions.

(** ** Response models *)

Record InternalDependency : Type := mkInternal {
  dep_source : string;
  dep_target : string;
  dep_import_type : string;
  dep_symbols : list string
}.

Record ExternalDependency : Type := mkExternal {
  ext_name : string;
  ext_used_in : list string;
  ext_import_count : nat
}.

Record GraphNode : Type := mkNode {
  node_id : string;
  node_type : string;
  node_path : string
}.

Record GraphEdge : Type := mkEdge {
  edge_source : string;
  edge_target : string;
  edge_weight : nat
}.

Record DependencyGraph : Type := mkGraph {
  nodes : list GraphNode;
  edges : list GraphEdge
}.

Record HighlyDepended : Type := mkHighly {
  hd_path : string;
  hd_dependents_count : nat
}.

Record MapOutputs : Type := mkOutputs {
  summary : string;
  total_dependencies : nat;
  internal_dependencies : list InternalDependency;
  external_dependencies : list ExternalDependency;
  dependency_graph : DependencyGraph;
  circular_dependencies : list (list string);
  entry_points : list string;
  highly_depended : list HighlyDepended
}.

(** [MapOutputs(summary=..., total_dependencies=0)]: every other field at its
    default *)
Definition empty_outputs (summary : string) : MapOutputs :=
  mkOutputs summary 0 [] [] (mkGraph [] []) [] [] [].

Record ExecuteInputs : Type := mkInputs {
  source_path : string;
  language : option string;
  depth : Z;                             (* [int], validated [ge=-1] *)
  include_external : bool;
  output_format : string
}.

(** ** Python containers *)

(** [s.add(x)] on a set kept in insertion order *)
Definition set_add (x : string) (s : list string) : list string :=
  if mem x s then s else s ++ [x].

(** [d.get(k, set())] on a dict of sets *)
Definition get_set (d : list (string * list string)) (k : string) : list string :=
  match find (fun '(k', _) => String.eqb k' k) d with
  | Some (_, v) => v
  | None => []
  end.

(** [d[k].add(x)] on a [defaultdict(set)] *)
Fixpoint dict_set_add (k x : string) (d : list (string * list string))
    : list (string * list string) :=
  match d with
  | [] => [(k, [x])]
  | (k', v) :: d' =>
      if String.eqb k' k then (k', set_add x v) :: d'
      else (k', v) :: dict_set_add k x d'
  end.

(** [list.index(x)] *)
Fixpoint index_of (x : string) (l : list string) : option nat :=
  match l with
  | [] => None
  | y :: l' => if String.eqb x y then Some 0
               else option_map S (index_of x l')
  end.

(** [str(n)] for a natural number *)
Definition nat_to_string (n : nat) : string :=
  NilEmpty.string_of_uint (Nat.to_uint n).

(** [[n for n in l if ...]] and [sorted(items, key=k, reverse=True)]:
    Python's sort is stable, also when reversed, so equal keys keep their order *)
Fixpoint insert_desc {A} (key : A -> nat) (x : A) (l : list A) : list A :=
  match l with
  | [] => [x]
  | y :: l' => if key y <? key x then x :: y :: l' else y :: insert_desc key x l'
  end.

Definition sort_desc {A} (key : A -> nat) (l : list A) : list A :=
  fold_left (fun acc x => insert_desc key x acc) l [].

(** [list(set(l))] before the iteration order is applied *)
Definition dedup (l : list string) : list string :=
  fold_left (fun s x => set_add x s) l [].

(** State of [find_circular_dependencies]: [cycles], [visited], [rec_stack] *)
Record CycState : Type := mkCyc {
  cycles : list (list string);
  visited : list string;
  rec_stack : list string
}.

(** Accumulators of the file loop of [map_dependencies] *)
Record ScanState : Type := mkScan {
  st_internal_deps : list InternalDependency;
  st_external_deps_map : list (string * (list string * nat));
  st_edges : list (string * list string);
  st_all_nodes : list string;
  st_external_nodes : list string
}.

Definition empty_scan : ScanState := mkScan [] [] [] [] [].

(** [external_deps_map[root]["used_in"].append(rel)] and
    [external_deps_map[root]["count"] += 1] on the [defaultdict] *)
Fixpoint ext_map_add (root rel : string) (m : list (string * (list string * nat)))
    : list (string * (list string * nat)) :=
  match m with
  | [] => [(root, ([rel], 1))]
  | (k, (used, count)) :: m' =>
      if String.eqb k root then (k, (used ++ [rel], S count)) :: m'
      else (k, (used, count)) :: ext_map_add root rel m'
  end.

Section Engine.

(** The iteration order of a Python [set] of strings. *)
Variable set_iter : list string -> list string.

(** How many nested calls of [dfs] fit under [sys.getrecursionlimit()] when
    [map_dependencies] calls [find_circular_dependencies]: the limit (1000
    by default) minus the frames already on the stack. *)
Variable recursion_room : nat.

(** [ast.parse]: a module's statements, or the exception it raises. *)
Variable ast_parse : string -> outcome (list pystmt).

Definition parse_python_imports (code : string) : outcome (list ImportRecord) :=
  match ast_parse code with
  | Done tree => Done (visit_module tree)
  | Raise SyntaxError => Done (parse_python_imports_regex code)
  | Raise e => Raise e
  end.

Definition parse_file_imports (fs : FileSystem) (file_path : string)
    (language : option string) : outcome (list ImportRecord) :=
  match fs_read fs file_path with
  | None => Done []
  | Some code =>
      if lang_is language "python" then parse_python_imports code
      else if lang_is language "javascript" || lang_is language "typescript" then
        Done (parse_js_imports code)
      else if lang_is language "java" then Done (parse_java_imports code)
      else if lang_is language "go" then Done (parse_go_imports code)
      else Done []
  end.

(** [for n in ns: body(n)] on a state that [body] threads *)
Fixpoint for_each (ns : list string) (body : string -> CycState -> outcome CycState)
    (s : CycState) : outcome CycState :=
  match ns with
  | [] => Done s
  | n :: ns' => s <- body n s ;; for_each ns' body s
  end.

(** *** [find_circular_dependencies]

    The nested [dfs(node, path)] with its recursion depth bounded by
    [fuel]; running out of it is Python's [RecursionError].  A failed
    [path.index(node)] is a [ValueError]. *)
Fixpoint dfs (fuel : nat) (edges : list (string * list string)) (node : string)
    (path : list string) (s : CycState) : outcome CycState :=
  match fuel with
  | 0 => Raise RecursionError
  | S f =>
      if mem node (rec_stack s) then
        match index_of node path with
        | None => Raise ValueError
        | Some cycle_start =>
            let cycle := skipn cycle_start path ++ [node] in
            if (1 <? length cycle)
               && negb (if in_dec (list_eq_dec string_dec) cycle (cycles s) then true else false)
            then Done (mkCyc (cycles s ++ [cycle]) (visited s) (rec_stack s))
            else Done s
        end
      else if mem node (visited s) then Done s
      else
        let s := mkCyc (cycles s) (set_add node (visited s)) (rec_stack s ++ [node]) in
        s <- for_each (set_iter (get_set edges node))
                      (fun neighbor s => dfs f edges neighbor (path ++ [node]) s) s ;;
        Done (mkCyc (cycles s) (visited s) (removelast (rec_stack s)))
  end.

(** [for node in edges: if node not in visited: dfs(node, [])] *)
Fixpoint dfs_roots (fuel : nat) (edges : list (string * list string)) (roots : list string)
    (s : CycState) : outcome CycState :=
  match roots with
  | [] => Done s
  | node :: roots' =>
      if mem node (visited s) then dfs_roots fuel edges roots' s
      else s <- dfs fuel edges node [] s ;; dfs_roots fuel edges roots' s
  end.

Definition find_circular_dependencies_fuel (fuel : nat) (edges : list (string * list string))
    : outcome (list (list string)) :=
  s <- dfs_roots fuel edges (map fst edges) (mkCyc [] [] []) ;;
  Done (firstn 10 (cycles s)).

(** Every node id the adjacency map mentions, keys and targets. *)
Definition graph_universe (edges : list (string * list string)) : list string :=
  map fst edges ++ concat (map snd edges).

(** [find_circular_dependencies(edges)], called with [recursion_room]
    levels of recursion left for [dfs]. *)
Definition find_circular_dependencies (edges : list (string * list string))
    : outcome (list (list string)) :=
  find_circular_dependencies_fuel recursion_room edges.

(** *** [map_dependencies] *)

(** The body of [for module, import_type, symbols in imports] *)
Definition process_import (include_ext : bool) (file_lang : option string)
    (file_path relative_path : string) (st : ScanState) (imp : ImportRecord) : ScanState :=
  let module := imp_module imp in
  if String.eqb module EmptyString then st
  else if is_external_dependency module file_lang file_path then
    if include_ext then
      let root_module := split_first "." (split_first "/" module) in
      mkScan (st_internal_deps st)
             (ext_map_add root_module relative_path (st_external_deps_map st))
             (st_edges st) (st_all_nodes st)
             (set_add root_module (st_external_nodes st))
    else st
  else
    mkScan (st_internal_deps st ++
              [mkInternal relative_path module (imp_type imp) (imp_symbols imp)])
           (st_external_deps_map st)
           (dict_set_add relative_path module (st_edges st))
           (set_add module (st_all_nodes st))
           (st_external_nodes st).

(** [language if language != "auto" else detect_language(file_path)] *)
Definition file_lang_of (inputs : ExecuteInputs) (file_path : string) : option string :=
  if lang_is (language inputs) "auto" then Some (detect_language file_path)
  else language inputs.

(** The [relative_path] of a scanned file *)
Definition relative_path_of (fs : FileSystem) (inputs : ExecuteInputs) (file_path : string)
    : string :=
  if fs_is_file fs (source_path inputs)
  then fs_relative_to fs file_path (fs_parent fs (source_path inputs))
  else fs_relative_to fs file_path (source_path inputs).

(** The body of [for file_path in source_files] *)
Definition process_file (fs : FileSystem) (inputs : ExecuteInputs) (st : ScanState)
    (file_path : string) : outcome ScanState :=
  let file_lang := file_lang_of inputs file_path in
  imports <- parse_file_imports fs file_path file_lang ;;
  let relative_path := relative_path_of fs inputs file_path in
  let st := mkScan (st_internal_deps st) (st_external_deps_map st) (st_edges st)
                   (set_add relative_path (st_all_nodes st)) (st_external_nodes st) in
  Done (fold_left (process_import (include_external inputs) file_lang file_path relative_path)
                  imports st).

Fixpoint scan_files (fs : FileSystem) (inputs : ExecuteInputs) (files : list string)
    (st : ScanState) : outcome ScanState :=
  match files with
  | [] => Done st
  | f :: files' => st <- process_file fs inputs st f ;; scan_files fs inputs files' st
  end.

(** The external dependency list before truncation *)
Definition external_list (st : ScanState) : list ExternalDependency :=
  map (fun '(name, (used, count)) =>
         mkExternal name (firstn 10 (set_iter (dedup used))) count)
      (sort_desc (fun '(_, (_, count)) => count) (st_external_deps_map st)).

Definition graph_nodes_of (st : ScanState) : list GraphNode :=
  map (fun n => mkNode n "internal" n) (set_iter (st_all_nodes st))
  ++ map (fun n => mkNode n "external" n) (set_iter (st_external_nodes st)).

Definition graph_edges_of (st : ScanState) : list GraphEdge :=
  flat_map (fun '(src, targets) => map (fun t => mkEdge src t 1) (set_iter targets))
           (st_edges st).

(** [targets = set(); for t_set in edges.values(): targets.update(t_set)] *)
Definition targets_of (st : ScanState) : list string :=
  fold_left (fun acc '(_, t_set) => fold_left (fun a t => set_add t a) (set_iter t_set) acc)
            (st_edges st) [].

Definition entry_points_of (st : ScanState) : list string :=
  filter (fun n => negb (mem n (targets_of st)) && mem n (map fst (st_edges st)))
         (set_iter (st_all_nodes st)).

Definition highly_depended_of (st : ScanState) : list HighlyDepended :=
  let dependent_counts :=
    map (fun t => (t, length (filter (fun '(_, deps) => mem t deps) (st_edges st))))
        (set_iter (targets_of st)) in
  firstn 10 (map (fun '(p, c) => mkHighly p c) (sort_desc snd dependent_counts)).

Definition build_report (n_files : nat) (st : ScanState) : outcome MapOutputs :=
  let internal_deps := st_internal_deps st in
  let external_deps := external_list st in
  circular <- find_circular_dependencies (st_edges st) ;;
  let highly_depended := highly_depended_of st in
  let total := length internal_deps + length external_deps in
  let summary_parts :=
    [("Analyzed " ++ nat_to_string n_files ++ " file(s).")%string;
     ("Found " ++ nat_to_string (length internal_deps) ++ " internal and "
       ++ nat_to_string (length external_deps) ++ " external dependencies.")%string]
    ++ (match circular with
        | [] => []
        | _ => [("Detected " ++ nat_to_string (length circular)
                 ++ " circular dependency chain(s).")%string]
        end)
    ++ (match highly_depended with
        | [] => []
        | top :: _ => [("Most depended: " ++ hd_path top ++ " ("
                        ++ nat_to_string (hd_dependents_count top) ++ " dependents).")%string]
        end) in
  Done (mkOutputs (String.concat " " summary_parts) total
                  (firstn 100 internal_deps) (firstn 50 external_deps)
                  (mkGraph (firstn 200 (graph_nodes_of st)) (firstn 500 (graph_edges_of st)))
                  circular (firstn 20 (entry_points_of st)) highly_depended).

Definition map_dependencies (fs : FileSystem) (inputs : ExecuteInputs) : outcome MapOutputs :=
  let source_path := source_path inputs in
  match fs_exists fs source_path with
  | Raise e => Raise e
  | Done false => Done (empty_outputs ("Path not found: " ++ source_path)%string)
  | Done true =>
      match get_source_files fs source_path (language inputs) with
      | [] => Done (empty_outputs ("No source files found in: " ++ source_path)%string)
      | source_files =>
          st <- scan_files fs inputs source_files empty_scan ;;
          build_report (length source_files) st
      end
  end.

End Engine.

(** ** Predicates of the proofs *)

(** A cycle as [dfs] reports it: it ends at the node it starts from. *)
Definition closed_cycle (c : list string) : Prop := exists x m, c = x :: m ++ [x].

(** [t in edges[s]] *)
Definition has_edge (d : list (string * list string)) (s t : string) : Prop :=
  exists v, In (s, v) d /\ In t v.

(** What the loop maintains: every key of [edges] has a target, every
    internal dependency is an edge, and every edge joins two nodes of
    [all_nodes]. *)
Definition scan_inv (st : ScanState) : Prop :=
  (forall k v, In (k, v) (st_edges st) -> v <> [])
  /\ (forall d, In d (st_internal_deps st) ->
        has_edge (st_edges st) (dep_source d) (dep_target d))
  /\ (forall s t, has_edge (st_edges st) s t ->
        In s (st_all_nodes st) /\ In t (st_all_nodes st)).

(** ** Fixtures: directories of source files *)

Definition nl : string := String "010"%char EmptyString.
Definition dq : string := String "034"%char EmptyString.

(** [s.endswith(suffix)] *)
Definition ends_with (suffix s : string) : bool :=
  String.prefix (S_ (rev (L suffix))) (S_ (rev (L s))).

Definition file_named (files : list (string * string)) (p : string)
    : option (string * string) :=
  find (fun '(f, _) => String.eqb f p) files.

(** Linux's [stat] fails with ENAMETOOLONG on a path of 4096 bytes or more,
    or on a path component longer than NAME_MAX, 255 bytes. *)
Definition name_too_long (p : string) : bool :=
  (4096 <=? String.length p) || existsb (fun c => 255 <? String.length c) (split_on "/"%char p).

(** A directory [dir] holding the files [files] (full path, text). *)
Definition dir_fs (dir : string) (files : list (string * string)) : FileSystem :=
  let is_file p := match file_named files p with Some _ => true | None => false end in
  mkFS (fun p => if name_too_long p then Raise OSError
                 else Done (String.eqb p dir || is_file p))
       is_file
       (fun p => String.eqb p dir)
       (fun p => p)
       (fun d ext => if String.eqb d dir then filter (ends_with ext) (map fst files) else [])
       (fun p => option_map snd (file_named files p))
       (fun p => if is_file p then dir else ".")
       (fun p base => substring (S (String.length base)) (String.length p) p).

Definition scan_request (dir : string) (include_ext : bool) : ExecuteInputs :=
  mkInputs dir (Some "auto") 3 include_ext "json".

(** Python sets iterated in insertion order; no Python file is parsed. *)
Definition insertion_order (l : list string) : list string := l.

Definition no_ast (code : string) : outcome (list pystmt) := Done [].

(** Room for [dfs] under the default recursion limit of 1000. *)
Definition default_room : nat := 990.


Definition go_import_line (module : string) : string :=
  ("import " ++ dq ++ module ++ dq ++ nl)%string.

(** [main.go] importing [./m0], ..., [./m(n-1)] *)
Definition go_fanout_fs (n : nat) : FileSystem :=
  dir_fs "proj" [("proj/main.go",
                  String.concat EmptyString
                    (map (fun i => go_import_line ("./m" ++ nat_to_string i)%string) (seq 0 n)))].

(** [a.js] imports [./b] and [b.js] imports [./a]. *)
Definition rel_pair_fs : FileSystem :=
  dir_fs "proj" [("proj/a.js", "import b from './b';" ++ nl)%string;
                 ("proj/b.js", "import a from './a';" ++ nl)%string].

(** [.a.js] imports [.b.js] and [.b.js] imports [.a.js]: the import targets
    are the other file's relative path. *)
Definition js_pair_fs : FileSystem :=
  dir_fs "proj" [("proj/.a.js", "import b from '.b.js';" ++ nl)%string;
                 ("proj/.b.js", "import a from '.a.js';" ++ nl)%string].

(** A name of 300 characters, longer than NAME_MAX *)
Definition long_name : string := S_ (repeat "a"%char 300).

Definition broken_python : string := "import os; y = (".

Definition report_of (r : outcome MapOutputs) : MapOutputs :=
  match r with Done out => out | Raise _ => empty_outputs EmptyString end.

Definition js_pair_report : MapOutputs :=
  report_of (map_dependencies insertion_order default_room no_ast js_pair_fs (scan_request "proj" false)).

Definition rel_pair_report : MapOutputs :=
  report_of (map_dependencies insertion_order default_room no_ast rel_pair_fs (scan_request "proj" false)).

Definition go_fanout_report (n : nat) : MapOutputs :=
  report_of (map_dependencies insertion_order default_room no_ast (go_fanout_fs n) (scan_request "proj" false)).

(** ** Definitions used by the further properties *)

Fixpoint is_walk (edges : list (string * list string)) (c : list string) : Prop :=
  match c with
  | x :: c' =>
      match c' with
      | y :: _ => In y (get_set edges x) /\ is_walk edges c'
      | [] => True
      end
  | [] => True
  end.

Definition ranked_by (rank : string -> nat) (edges : list (string * list string)) : bool :=
  forallb (fun '(k, v) => forallb (fun t => rank k <? rank t) v) edges.

Definition simple_cycle (edges : list (string * list string)) (c : list string) : Prop :=
  exists x m, c = x :: m ++ [x] /\ NoDup (x :: m) /\ is_walk edges c.

Definition cycles_ok (edges : list (string * list string)) (cs : list (list string)) : Prop :=
  NoDup cs /\ Forall (simple_cycle edges) cs.

(** Edge-to-dependency invariant of the file loop *)
Definition edges_recorded (st : ScanState) : Prop :=
  forall s t, has_edge (st_edges st) s t ->
    exists d, In d (st_internal_deps st) /\ dep_source d = s /\ dep_target d = t.

Definition triangle_edges : list (string * list string) :=
  [("a", ["b"]); ("b", ["c"; "a"]); ("c", ["a"])].

Definition layered_edges : list (string * list string) :=
  [("app", ["core"; "util"]); ("core", ["util"]); ("main", ["app"; "util"])].

Definition layer (n : string) : nat :=
  if String.eqb n "main" then 0 else if String.eqb n "app" then 1
  else if String.eqb n "core" then 2 else 3.

Definition desc_by {A} (key : A -> nat) (a b : A) : Prop := key b <= key a.

Definition scan_nodup (st : ScanState) : Prop :=
  NoDup (map fst (st_edges st))
  /\ (forall k v, In (k, v) (st_edges st) -> NoDup v)
  /\ NoDup (st_all_nodes st)
  /\ NoDup (st_external_nodes st)
  /\ NoDup (map fst (st_external_deps_map st)).

Definition ext_inv (st : ScanState) : Prop :=
  forall k used count, In (k, (used, count)) (st_external_deps_map st) ->
    length used = count /\ 1 <= count /\ incl used (st_all_nodes st)
    /\ In k (st_external_nodes st)
    /\ contains_char "." k = false /\ contains_char "/" k = false.

Definition dependents (st : ScanState) (t : string) (srcs : list string) : Prop :=
  NoDup srcs
  /\ forall s, In s srcs <->
       exists d, In d (st_internal_deps st) /\ dep_source d = s /\ dep_target d = t.

Record ExecuteRequest (Any : Type) : Type := mkRequest {
  inputs : ExecuteInputs;
  context : option (list (string * Any))
}.
Arguments mkRequest {Any} inputs context.
Arguments inputs {Any} e.
Arguments context {Any} e.

Record Metadata : Type := mkMetadata {
  execution_time_ms : nat;
  meta_source_path : string;
  meta_language : option string
}.

Record ExecuteResponse : Type := mkResponse {
  status : string;
  outputs : MapOutputs;
  metadata : option Metadata
}.

Inductive HttpResult : Type :=
| HttpOk (response : ExecuteResponse)
| HTTPException (status_code : nat) (detail_code detail_message : string).

Definition execute {Any : Type} (set_iter : list string -> list string) (recursion_room : nat)
    (ast_parse : string -> outcome (list pystmt)) (fs : FileSystem)
    (str_exn : exn -> string) (elapsed_ms : nat) (request : ExecuteRequest Any) : HttpResult :=
  match map_dependencies set_iter recursion_room ast_parse fs (inputs request) with
  | Done outputs =>
      HttpOk (mkResponse "success" outputs
                (Some (mkMetadata elapsed_ms (source_path (inputs request))
                                  (language (inputs request)))))
  | Raise e => HTTPException 500 "INTERNAL_ERROR" (str_exn e)
  end.

Definition java_name_char (c : ascii) : bool := is_word c || is_char "." c.

Definition js_loop_fs : FileSystem :=
  dir_fs "proj" [("proj/.m.js", "import a from '.a.js';" ++ nl ++ "import React from 'react';" ++ nl)%string;
                 ("proj/.a.js", "import b from '.b.js';" ++ nl)%string;
                 ("proj/.b.js", "import a from '.a.js';" ++ nl ++ "import React from 'react';" ++ nl)%string].

Definition js_loop_request : ExecuteInputs := scan_request "proj" true.

Definition js_loop_report : MapOutputs :=
  report_of (map_dependencies insertion_order default_room no_ast js_loop_fs js_loop_request).

Definition scan_of (r : outcome ScanState) : ScanState :=
  match r with Done st => st | Raise _ => empty_scan end.

Definition js_loop_files : list string := get_source_files js_loop_fs "proj" (Some "auto").

Definition js_loop_scan : ScanState :=
  scan_of (scan_files no_ast js_loop_fs js_loop_request js_loop_files empty_scan).

Definition py_fs : FileSystem := dir_fs "proj" [("proj/m.py", "import os" ++ nl)%string].

Definition py_request : ExecuteRequest nat := mkRequest (scan_request "proj" true) None.

Definition exn_name (e : exn) : string :=
  match e with
  | SyntaxError => "SyntaxError"
  | ValueError => "ValueError"
  | RecursionError => "RecursionError"
  | OSError => "OSError"
  end.

Definition recursion_error_ast (code : string) : outcome (list pystmt) := Raise RecursionError.

Definition bare_from_ast (code : string) : outcome (list pystmt) :=
  Done [ImportFrom None [("helper", None)] 1].

Definition relative_from_ast (code : string) : outcome (list pystmt) :=
  Done [ImportFrom (Some "utils") [("helper", None)] 1].

Definition js_sample : string :=
  ("import React from 'react';" ++ nl ++ "const fs = require('fs');" ++ nl)%string.

Definition go_sample : string := ("import (" ++ nl ++ "  f " ++ dq ++ "fmt" ++ dq ++ nl ++ ")" ++ nl)%string.

Definition java_sample : string := ("import java.util.List;" ++ nl)%string.

Definition py_sample : string := ("import os.path" ++ nl)%string.

(** * Properties *)

(** ** Classification *)

(** Claim C1 fails on the standard library: [import os] in a Python file is
    not classified external. *)
Lemma python_stdlib_not_external :
  is_external_dependency "os" (Some "python") "main.py" = false.
Proof. reflexivity. Qed.

(** Claim C1, as the code does it: a Python target that does not start with
    [.] is external exactly when its root token (the text before the first
    [.]) is not in [PYTHON_STDLIB]; standard-library targets are not
    external. *)
Theorem python_classification (module source_file : string)
    (Hrel : startswith module "." = false) :
  is_external_dependency module (Some "python") source_file
  = negb (mem (split_first "." module) PYTHON_STDLIB).
Proof. unfold is_external_dependency. rewrite Hrel. reflexivity. Qed.

Lemma python_classification_witness :
  startswith "numpy.linalg" "." = false
  /\ is_external_dependency "numpy.linalg" (Some "python") "m.py"
     = negb (mem (split_first "." "numpy.linalg") PYTHON_STDLIB).
Proof. split; [reflexivity | apply python_classification; reflexivity]. Defined.

(** Claim C4 fails: [import "fmt"] in a Go file is not classified external. *)
Lemma go_stdlib_not_external :
  is_external_dependency "fmt" (Some "go") "main.go" = false.
Proof. reflexivity. Qed.

(** Claim C4, as the code does it: a Go target with no [/] and no [.] (a
    standard-library import by the code's heuristic) is classified not
    external. *)
Theorem go_stdlib_classification (module source_file : string)
    (Hslash : contains_char "/" module = false)
    (Hdot : contains_char "." module = false) :
  is_external_dependency module (Some "go") source_file = false.
Proof.
  unfold is_external_dependency. simpl.
  destruct (startswith module ".") eqn:Hs; [reflexivity|].
  rewrite Hdot, Hslash. reflexivity.
Qed.

Lemma go_stdlib_classification_witness :
  contains_char "/" "strings" = false /\ contains_char "." "strings" = false
  /\ is_external_dependency "strings" (Some "go") "x.go" = false.
Proof.
  split; [reflexivity|]. split; [reflexivity|].
  apply go_stdlib_classification; reflexivity.
Defined.

(** ** Degenerate reports *)

(** Claim C8, where the code keeps it: a [source_path] for which
    [Path.exists()] returns [False] gives a successful report whose summary
    says [not found], with zero dependencies and every list empty. *)
Theorem missing_path_report (set_iter : list string -> list string) (recursion_room : nat)
    (ast_parse : string -> outcome (list pystmt)) (fs : FileSystem)
    (inputs : ExecuteInputs)
    (Hmissing : fs_exists fs (source_path inputs) = Done false) :
  exists out,
    map_dependencies set_iter recursion_room ast_parse fs inputs = Done out
    /\ contains_sub (L "not found") (L (summary out)) = true
    /\ total_dependencies out = 0
    /\ internal_dependencies out = [] /\ external_dependencies out = []
    /\ nodes (dependency_graph out) = [] /\ edges (dependency_graph out) = []
    /\ circular_dependencies out = [] /\ entry_points out = []
    /\ highly_depended out = [].
Proof.
  unfold map_dependencies. rewrite Hmissing. simpl.
  eexists. split; [reflexivity|].
  repeat split; reflexivity.
Qed.

Lemma missing_path_report_witness :
  fs_exists rel_pair_fs (source_path (scan_request "proj/missing" false)) = Done false
  /\ exists out,
       map_dependencies insertion_order default_room no_ast rel_pair_fs (scan_request "proj/missing" false)
       = Done out
       /\ contains_sub (L "not found") (L (summary out)) = true
       /\ total_dependencies out = 0
       /\ internal_dependencies out = [] /\ external_dependencies out = []
       /\ nodes (dependency_graph out) = [] /\ edges (dependency_graph out) = []
       /\ circular_dependencies out = [] /\ entry_points out = []
       /\ highly_depended out = [].
Proof.
  split; [vm_compute; reflexivity|].
  apply missing_path_report. vm_compute. reflexivity.
Defined.

(** Claim C8 fails on a path name the file system rejects: [rel_pair_fs]
    holds no [long_name], but [Path.exists()] raises [OSError]
    (ENAMETOOLONG) on it instead of returning [False]; [map_dependencies]
    lets the exception through and [/execute] answers HTTP 500. *)
Lemma long_missing_path_raises :
  fs_is_file rel_pair_fs long_name = false /\ fs_is_dir rel_pair_fs long_name = false
  /\ fs_exists rel_pair_fs long_name = Raise OSError
  /\ map_dependencies insertion_order default_room no_ast rel_pair_fs
       (scan_request long_name false) = Raise OSError
  /\ execute insertion_order default_room no_ast rel_pair_fs exn_name 7
       (mkRequest (Any := nat) (scan_request long_name false) None)
     = HTTPException 500 "INTERNAL_ERROR" "OSError".
Proof. vm_compute. repeat split; reflexivity. Qed.

(** ** Python extraction *)

(** Claim C9: when [ast.parse] raises [SyntaxError], the Python extractor
    returns exactly the records of the regular-expression strategy, and
    reading a Python file then yields those records instead of an error. *)
Theorem python_syntax_error_fallback (ast_parse : string -> outcome (list pystmt))
    (code : string) (Hsyntax : ast_parse code = Raise SyntaxError) :
  parse_python_imports ast_parse code = Done (parse_python_imports_regex code)
  /\ forall (fs : FileSystem) (file_path : string),
       fs_read fs file_path = Some code ->
       parse_file_imports ast_parse fs file_path (Some "python")
       = Done (parse_python_imports_regex code).
Proof.
  assert (H : parse_python_imports ast_parse code = Done (parse_python_imports_regex code)).
  { unfold parse_python_imports. rewrite Hsyntax. reflexivity. }
  split; [exact H|].
  intros fs file_path Hread. unfold parse_file_imports. rewrite Hread. exact H.
Qed.

Lemma python_syntax_error_fallback_witness :
  (fun _ : string => Raise SyntaxError : outcome (list pystmt)) broken_python = Raise SyntaxError
  /\ parse_python_imports (fun _ => Raise SyntaxError) broken_python
     = Done [mkImport "os" "direct" ["os"]].
Proof.
  split; [reflexivity|].
  rewrite (proj1 (python_syntax_error_fallback (fun _ => Raise SyntaxError) broken_python
                    eq_refl)).
  vm_compute. reflexivity.
Defined.

(** ** Library of list facts about the Python containers *)

Lemma mem_In (x : string) (l : list string) : mem x l = true <-> In x l.
Proof.
  unfold mem. rewrite existsb_exists. split.
  - intros [y [Hy Heq]]. apply String.eqb_eq in Heq. subst. exact Hy.
  - intros H. exists x. split; [exact H | apply String.eqb_refl].
Qed.

Lemma mem_false_not_In (x : string) (l : list string) : mem x l = false -> ~ In x l.
Proof. intros H Hin. apply mem_In in Hin. congruence. Qed.

Lemma set_add_In (x y : string) (l : list string) : In x (set_add y l) <-> x = y \/ In x l.
Proof.
  unfold set_add. destruct (mem y l) eqn:Hm.
  - apply mem_In in Hm. split; [tauto|]. intros [->|H]; assumption.
  - rewrite in_app_iff. simpl. split; intros; intuition.
Qed.

Lemma index_of_nth (x : string) (l : list string) (i : nat) :
  index_of x l = Some i -> nth_error l i = Some x.
Proof.
  revert i. induction l as [|y l IH]; intros i H; simpl in H; [discriminate|].
  destruct (String.eqb x y) eqn:Hxy.
  - apply String.eqb_eq in Hxy. subst. injection H as <-. reflexivity.
  - destruct (index_of x l) as [j|] eqn:Hj; simpl in H; [|discriminate].
    injection H as <-. simpl. apply IH. reflexivity.
Qed.

Lemma index_of_In (x : string) (l : list string) : In x l -> index_of x l <> None.
Proof.
  induction l as [|y l IH]; simpl; [tauto|].
  destruct (String.eqb x y) eqn:Hxy; [discriminate|].
  intros [->|H].
  - rewrite String.eqb_refl in Hxy. discriminate.
  - destruct (index_of x l); [discriminate | exfalso; apply IH; auto].
Qed.

Lemma skipn_nth_error {A} (l : list A) (i : nat) (x : A) :
  nth_error l i = Some x -> exists rest, skipn i l = x :: rest.
Proof.
  revert l. induction i as [|i IH]; intros [|y l] H; simpl in *; try discriminate.
  - injection H as ->. eauto.
  - apply IH. exact H.
Qed.

Lemma get_set_In (d : list (string * list string)) (k x : string) :
  In x (get_set d k) -> In x (concat (map snd d)).
Proof.
  unfold get_set. destruct (find _ d) as [[k' v]|] eqn:Hf; [|simpl; tauto].
  intros Hx. apply find_some in Hf. destruct Hf as [Hin _].
  apply in_concat. exists v. split; [|exact Hx].
  apply in_map_iff. exists (k', v). auto.
Qed.

Lemma In_firstn {A} (x : A) (n : nat) (l : list A) : In x (firstn n l) -> In x l.
Proof. intros H. rewrite <- (firstn_skipn n l). apply in_or_app. left. exact H. Qed.

(** A reported cycle starts and ends at the same node. *)

Lemma for_each_inv (P : CycState -> Prop) (Q : exn -> Prop) (ns : list string)
    (body : string -> CycState -> outcome CycState) (s : CycState) :
  P s ->
  (forall n s, In n ns -> P s ->
     match body n s with Done s' => P s' | Raise e => Q e end) ->
  match for_each ns body s with Done s' => P s' | Raise e => Q e end.
Proof.
  revert s. induction ns as [|n ns IH]; intros s Hs Hbody; simpl; [exact Hs|].
  pose proof (Hbody n s (or_introl eq_refl) Hs) as Hn.
  destruct (body n s) as [s'|e]; simpl; [|exact Hn].
  apply IH; [exact Hn|]. intros; apply Hbody; simpl; auto.
Qed.

(** ** The cycle detector *)

(** Discharge the first premise of a hypothesis as a new goal. *)
Ltac forward_premise H :=
  match type of H with
  | ?A -> _ => let HA := fresh in assert (HA : A); [|specialize (H HA); clear HA]
  end.

Section CycleDetector.

Variable set_iter : list string -> list string.

(** At every call of [dfs], [rec_stack] holds exactly the nodes of [path];
    so [path.index(node)] succeeds, and the only exception left is running
    out of recursion depth.  Every cycle recorded is closed. *)
Lemma dfs_inv (f : nat) (edges : list (string * list string)) (node : string)
    (path : list string) (s : CycState) :
  rec_stack s = path ->
  match dfs set_iter f edges node path s with
  | Done s' => rec_stack s' = path
               /\ (Forall closed_cycle (cycles s) -> Forall closed_cycle (cycles s'))
  | Raise e => e = RecursionError
  end.
Proof.
  revert node path s. induction f as [|f IH]; intros node path s Hst; simpl; [reflexivity|].
  destruct (mem node (rec_stack s)) eqn:Hm.
  - rewrite Hst in Hm. apply mem_In in Hm.
    destruct (index_of node path) as [i|] eqn:Hi.
    + apply index_of_nth in Hi. destruct (skipn_nth_error _ _ _ Hi) as [rest Hrest].
      destruct (_ && _); simpl; split; auto.
      intros Hcl. apply Forall_app. split; [exact Hcl|]. constructor; [|constructor].
      rewrite Hrest. exists node, rest. reflexivity.
    + exfalso. exact (index_of_In _ _ Hm Hi).
  - destruct (mem node (visited s)); [simpl; auto|].
    pose proof (for_each_inv
      (fun s' => rec_stack s' = path ++ [node]
                 /\ (Forall closed_cycle (cycles s) -> Forall closed_cycle (cycles s')))
      (fun e => e = RecursionError)
      (set_iter (get_set edges node))
      (fun neighbor s => dfs set_iter f edges neighbor (path ++ [node]) s)
      (mkCyc (cycles s) (set_add node (visited s)) (rec_stack s ++ [node]))) as Hloop.
    simpl in Hloop. subst path.
    specialize (Hloop (conj eq_refl (fun H => H))).
    forward_premise Hloop.
    { intros n s' _ [Hs' Hc']. pose proof (IH n _ s' Hs') as Hn.
      destruct (dfs _ _ _ _ _ _); [|exact Hn].
      destruct Hn as [Hn1 Hn2]. split; auto. }
    destruct (for_each _ _ _) as [s2|e]; simpl; [|exact Hloop].
    destruct Hloop as [Hs2 Hc2]. split; [|exact Hc2].
    rewrite Hs2. apply removelast_last.
Qed.

Lemma dfs_roots_inv (fuel : nat) (edges : list (string * list string)) (roots : list string)
    (s : CycState) :
  rec_stack s = [] -> Forall closed_cycle (cycles s) ->
  match dfs_roots set_iter fuel edges roots s with
  | Done s' => rec_stack s' = [] /\ Forall closed_cycle (cycles s')
  | Raise e => e = RecursionError
  end.
Proof.
  revert s. induction roots as [|r roots IH]; intros s Hst Hcl; simpl; [auto|].
  destruct (mem r (visited s)); [apply IH; auto|].
  pose proof (dfs_inv fuel edges r [] s Hst) as Hd.
  destruct (dfs set_iter fuel edges r [] s) as [s'|e]; simpl; [|exact Hd].
  destruct Hd as [Hd1 Hd2]. apply IH; auto.
Qed.

Lemma find_circular_dependencies_fuel_inv (fuel : nat) (edges : list (string * list string)) :
  match find_circular_dependencies_fuel set_iter fuel edges with
  | Done cs => length cs <= 10 /\ Forall closed_cycle cs
  | Raise e => e = RecursionError
  end.
Proof.
  unfold find_circular_dependencies_fuel.
  pose proof (dfs_roots_inv fuel edges (map fst edges) (mkCyc [] [] []) eq_refl
                (Forall_nil _)) as H.
  destruct (dfs_roots _ _ _ _ _) as [s|e]; cbn [obind]; [|exact H].
  split; [apply firstn_le_length|].
  destruct H as [_ Hc]. rewrite Forall_forall in *.
  intros c Hin. apply Hc. exact (In_firstn _ _ _ Hin).
Qed.




End CycleDetector.

Section CycleDetectorTerminates.

Variable set_iter : list string -> list string.

(** Python iterates over every element of a set exactly once. *)
Hypothesis set_iter_perm : forall l, Permutation (set_iter l) l.

Lemma set_iter_In (x : string) (l : list string) : In x (set_iter l) <-> In x l.
Proof.
  split; intros H.
  - exact (Permutation_in _ (set_iter_perm l) H).
  - exact (Permutation_in _ (Permutation_sym (set_iter_perm l)) H).
Qed.

(** With [|U| + 1] levels of recursion, [U] the nodes the adjacency map
    mentions, [dfs] never runs out of depth: the recursion stack holds
    distinct visited nodes of [U]. *)
Lemma dfs_done (f : nat) (edges : list (string * list string)) (node : string)
    (path : list string) (s : CycState) :
  rec_stack s = path -> NoDup path -> incl path (visited s) ->
  incl path (graph_universe edges) -> In node (graph_universe edges) ->
  length (graph_universe edges) + 1 <= f + length path ->
  exists s', dfs set_iter f edges node path s = Done s'
             /\ rec_stack s' = path /\ incl (visited s) (visited s').
Proof.
  revert node path s.
  induction f as [|f IH]; intros node path s Hst Hnd Hvis HU Hnode Hlen.
  - pose proof (NoDup_incl_length Hnd HU). lia.
  - simpl. destruct (mem node (rec_stack s)) eqn:Hm.
    + rewrite Hst in Hm. apply mem_In in Hm.
      destruct (index_of node path) as [i|] eqn:Hi;
        [|exfalso; exact (index_of_In _ _ Hm Hi)].
      destruct (_ && _); eexists; (split; [reflexivity|]); simpl; auto using incl_refl.
    + destruct (mem node (visited s)) eqn:Hv.
      { exists s. auto using incl_refl. }
      apply mem_false_not_In in Hv.
      subst path.
      set (s1 := mkCyc (cycles s) (set_add node (visited s)) (rec_stack s ++ [node])).
      assert (Hs1 : incl (visited s) (visited s1)).
      { intros x Hx. simpl. apply set_add_In. auto. }
      pose proof (for_each_inv
        (fun s' => rec_stack s' = rec_stack s ++ [node] /\ incl (visited s1) (visited s'))
        (fun _ => False)
        (set_iter (get_set edges node))
        (fun neighbor s => dfs set_iter f edges neighbor (rec_stack s1) s)
        s1 (conj eq_refl (incl_refl _))) as Hloop.
      forward_premise Hloop.
      { intros n s' Hn [Hs' Hv'].
        assert (Hnin : ~ In node (rec_stack s)) by (intros H; apply Hv, Hvis, H).
        destruct (IH n (rec_stack s ++ [node]) s') as [s'' [Hd [Hst'' Hv'']]].
        - exact Hs'.
        - apply Permutation_NoDup with (l := node :: rec_stack s);
            [apply Permutation_cons_append | constructor; assumption].
        - intros x Hx. apply in_app_iff in Hx. apply Hv'. simpl.
          apply set_add_In. destruct Hx as [Hx|[Hx|[]]]; [right; apply Hvis, Hx | left; auto].
        - intros x Hx. apply in_app_iff in Hx. destruct Hx as [Hx|[Hx|[]]]; [apply HU, Hx|subst; exact Hnode].
        - apply (proj1 (set_iter_In _ _)) in Hn. apply get_set_In in Hn.
          unfold graph_universe. apply in_or_app. right. exact Hn.
        - rewrite length_app. simpl. lia.
        - unfold s1 at 1. simpl. rewrite Hd. split; [exact Hst''|].
          intros x Hx. apply Hv'', Hv', Hx. }
      simpl in Hloop. simpl.
      destruct (for_each _ _ _) as [s2|e]; cbn [obind]; [|contradiction].
      destruct Hloop as [Hs2 Hv2]. eexists. split; [reflexivity|]. simpl. split.
      * rewrite Hs2. apply removelast_last.
      * intros x Hx. apply Hv2, Hs1, Hx.
Qed.

Lemma dfs_roots_done (fuel : nat) (edges : list (string * list string)) (roots : list string)
    (s : CycState) :
  rec_stack s = [] -> incl roots (graph_universe edges) ->
  length (graph_universe edges) + 1 <= fuel ->
  exists s', dfs_roots set_iter fuel edges roots s = Done s' /\ rec_stack s' = [].
Proof.
  revert s. induction roots as [|r roots IH]; intros s Hst Hroots Hfuel; simpl; [eauto|].
  destruct (mem r (visited s)).
  { apply IH; auto. intros x Hx. apply Hroots. right. exact Hx. }
  destruct (dfs_done fuel edges r [] s Hst (NoDup_nil _) (incl_nil_l _) (incl_nil_l _))
    as [s' [Hd [Hst' _]]].
  - apply Hroots. left. reflexivity.
  - simpl. lia.
  - rewrite Hd. cbn [obind]. apply IH; auto. intros x Hx. apply Hroots. right. exact Hx.
Qed.

Lemma find_circular_dependencies_done (fuel : nat) (edges : list (string * list string)) :
  length (graph_universe edges) < fuel ->
  exists cs, find_circular_dependencies_fuel set_iter fuel edges = Done cs.
Proof.
  intros Hfuel. unfold find_circular_dependencies_fuel.
  destruct (dfs_roots_done fuel edges (map fst edges) (mkCyc [] [] []) eq_refl) as [s [Hd _]].
  - intros x Hx. unfold graph_universe. apply in_or_app. left. exact Hx.
  - lia.
  - rewrite Hd. cbn [obind]. eauto.
Qed.

End CycleDetectorTerminates.




(** ** Shape of a report *)

Lemma map_dependencies_inv (set_iter : list string -> list string) (recursion_room : nat)
    (ast_parse : string -> outcome (list pystmt)) (fs : FileSystem) (inputs : ExecuteInputs)
    (out : MapOutputs) :
  map_dependencies set_iter recursion_room ast_parse fs inputs = Done out ->
  (exists msg, out = empty_outputs msg)
  \/ exists st,
       scan_files ast_parse fs inputs
         (get_source_files fs (source_path inputs) (language inputs)) empty_scan = Done st
       /\ build_report set_iter recursion_room
            (length (get_source_files fs (source_path inputs) (language inputs))) st
          = Done out.
Proof.
  unfold map_dependencies. destruct (fs_exists fs (source_path inputs)) as [[|]|e]; [| |discriminate].
  - destruct (get_source_files fs (source_path inputs) (language inputs)) as [|f fs'] eqn:Hf.
    + intros H. injection H as <-. left. eauto.
    + intros H. right.
      destruct (scan_files ast_parse fs inputs (f :: fs') empty_scan) as [st|e] eqn:Hs;
        cbn [obind] in H; [|discriminate].
      exists st. split; [reflexivity | exact H].
  - intros H. injection H as <-. left. eauto.
Qed.

Lemma build_report_inv (set_iter : list string -> list string) (recursion_room : nat) (n : nat) (st : ScanState)
    (out : MapOutputs) :
  build_report set_iter recursion_room n st = Done out ->
  find_circular_dependencies set_iter recursion_room (st_edges st) = Done (circular_dependencies out)
  /\ total_dependencies out = length (st_internal_deps st) + length (external_list set_iter st)
  /\ internal_dependencies out = firstn 100 (st_internal_deps st)
  /\ external_dependencies out = firstn 50 (external_list set_iter st)
  /\ nodes (dependency_graph out) = firstn 200 (graph_nodes_of set_iter st)
  /\ edges (dependency_graph out) = firstn 500 (graph_edges_of set_iter st)
  /\ entry_points out = firstn 20 (entry_points_of set_iter st).
Proof.
  unfold build_report.
  destruct (find_circular_dependencies set_iter recursion_room (st_edges st)) as [cs|e]; cbn [obind];
    [|discriminate].
  intros H. injection H as <-. simpl. repeat split; reflexivity.
Qed.

(** Claim C5: every report has at most 10 cycles, each starting and ending
    at the same node id. *)
Theorem circular_dependencies_closed (set_iter : list string -> list string) (recursion_room : nat)
    (ast_parse : string -> outcome (list pystmt)) (fs : FileSystem) (inputs : ExecuteInputs)
    (out : MapOutputs) (Hout : map_dependencies set_iter recursion_room ast_parse fs inputs = Done out) :
  length (circular_dependencies out) <= 10
  /\ forall c, In c (circular_dependencies out) -> exists x m, c = x :: m ++ [x].
Proof.
  destruct (map_dependencies_inv _ _ _ _ _ _ Hout) as [[msg ->]|[st [_ Hb]]].
  - simpl. split; [lia | intros c []].
  - apply build_report_inv in Hb. destruct Hb as [Hc _].
    pose proof (find_circular_dependencies_fuel_inv set_iter recursion_room (st_edges st)) as H.
    unfold find_circular_dependencies in Hc. rewrite Hc in H.
    destruct H as [Hlen Hcl]. split; [exact Hlen|].
    intros c Hin. rewrite Forall_forall in Hcl. exact (Hcl c Hin).
Qed.

Lemma circular_dependencies_closed_witness :
  map_dependencies insertion_order default_room no_ast js_pair_fs (scan_request "proj" false)
  = Done js_pair_report
  /\ length (circular_dependencies js_pair_report) <= 10
  /\ forall c, In c (circular_dependencies js_pair_report) -> exists x m, c = x :: m ++ [x].
Proof.
  assert (H : map_dependencies insertion_order default_room no_ast js_pair_fs (scan_request "proj" false)
              = Done js_pair_report) by (vm_compute; reflexivity).
  split; [exact H | exact (circular_dependencies_closed _ _ _ _ _ _ H)].
Defined.

(** ** Invariants of the file loop *)

Lemma dict_set_add_has_edge (k x : string) (d : list (string * list string)) (s t : string) :
  has_edge (dict_set_add k x d) s t <-> (s = k /\ t = x) \/ has_edge d s t.
Proof.
  unfold has_edge. induction d as [|[k' v] d IH]; simpl.
  - split.
    + intros [v [[Hkv|[]] Ht]]. injection Hkv as <- <-. destruct Ht as [<-|[]]. auto.
    + intros [[-> ->]|[v [[] _]]]. exists [x]. simpl. auto.
  - destruct (String.eqb k' k) eqn:Hk.
    + apply String.eqb_eq in Hk. subst k'. simpl. split.
      * intros [w [[Hw|Hw] Ht]].
        -- injection Hw as Hk1 Hv1. subst. apply set_add_In in Ht.
           destruct Ht as [->|Ht]; [auto|]. right. exists v. auto.
        -- right. exists w. auto.
      * intros [[-> ->]|[w [[Hw|Hw] Ht]]].
        -- exists (set_add x v). split; [left; reflexivity | apply set_add_In; auto].
        -- injection Hw as Hk1 Hv1. subst. exists (set_add x w).
           split; [left; reflexivity | apply set_add_In; auto].
        -- exists w. auto.
    + simpl. split.
      * intros [w [[Hw|Hw] Ht]].
        -- injection Hw as Hk1 Hv1. subst. right. exists w. auto.
        -- destruct (proj1 IH (ex_intro _ w (conj Hw Ht))) as [H|[u [Hu Hu']]]; [auto|].
           right. exists u. auto.
      * intros [H|[w [[Hw|Hw] Ht]]].
        -- destruct (proj2 IH (or_introl H)) as [u [Hu Hu']]. exists u. auto.
        -- exists w. auto.
        -- destruct (proj2 IH (or_intror (ex_intro _ w (conj Hw Ht)))) as [u [Hu Hu']].
           exists u. auto.
Qed.

Lemma dict_set_add_nonempty (k x : string) (d : list (string * list string)) :
  (forall k' v, In (k', v) d -> v <> []) ->
  forall k' v, In (k', v) (dict_set_add k x d) -> v <> [].
Proof.
  induction d as [|[k0 v0] d IH]; simpl; intros Hd k' v Hin.
  - destruct Hin as [H|[]]. injection H as _ <-. discriminate.
  - destruct (String.eqb k0 k); simpl in Hin; destruct Hin as [H|H].
    + injection H as _ <-. intros He. pose proof (proj2 (set_add_In x x v0) (or_introl eq_refl)).
      rewrite He in H. contradiction.
    + exact (Hd k' v (or_intror H)).
    + injection H as Hk Hv. subst. exact (Hd _ _ (or_introl eq_refl)).
    + exact (IH (fun k1 v1 H1 => Hd k1 v1 (or_intror H1)) k' v H).
Qed.

Lemma process_import_inv (include_ext : bool) (file_lang : option string)
    (file_path rel : string) (st : ScanState) (imp : ImportRecord) :
  scan_inv st -> In rel (st_all_nodes st) ->
  scan_inv (process_import include_ext file_lang file_path rel st imp)
  /\ In rel (st_all_nodes (process_import include_ext file_lang file_path rel st imp)).
Proof.
  intros [H1 [H2 H3]] Hrel. unfold process_import.
  destruct (String.eqb (imp_module imp) EmptyString); [split; [split; auto | auto]|].
  destruct (is_external_dependency _ _ _).
  - destruct include_ext; [|split; [split; auto | auto]].
    simpl. split; [split; [|split] |]; auto.
  - simpl. split; [split; [|split] |].
    + apply dict_set_add_nonempty. exact H1.
    + intros d Hd. apply in_app_iff in Hd. apply dict_set_add_has_edge.
      destruct Hd as [Hd|[<-|[]]]; [right; auto | left; simpl; auto].
    + intros s t Hst. apply dict_set_add_has_edge in Hst.
      destruct Hst as [[-> ->]|Hst].
      * split; apply set_add_In; auto.
      * destruct (H3 s t Hst). split; apply set_add_In; auto.
    + apply set_add_In. auto.
Qed.

Lemma process_imports_inv (include_ext : bool) (file_lang : option string)
    (file_path rel : string) (imports : list ImportRecord) (st : ScanState) :
  scan_inv st -> In rel (st_all_nodes st) ->
  scan_inv (fold_left (process_import include_ext file_lang file_path rel) imports st).
Proof.
  revert st. induction imports as [|imp imports IH]; intros st Hinv Hrel; simpl; [exact Hinv|].
  destruct (process_import_inv include_ext file_lang file_path rel st imp Hinv Hrel).
  apply IH; assumption.
Qed.

Lemma scan_files_inv (ast_parse : string -> outcome (list pystmt)) (fs : FileSystem)
    (inputs : ExecuteInputs) (files : list string) (st st' : ScanState) :
  scan_inv st -> scan_files ast_parse fs inputs files st = Done st' -> scan_inv st'.
Proof.
  revert st. induction files as [|f files IH]; intros st Hinv Hs; simpl in Hs.
  - injection Hs as <-. exact Hinv.
  - unfold process_file in Hs.
    destruct (parse_file_imports ast_parse fs f (file_lang_of inputs f)) as [imports|e];
      cbn [obind] in Hs; [|discriminate].
    apply IH in Hs; [exact Hs|].
    destruct Hinv as [H1 [H2 H3]].
    apply process_imports_inv; simpl.
    + split; [exact H1 | split; [exact H2|]].
      intros s t Hst. destruct (H3 s t Hst). split; apply set_add_In; auto.
    + apply set_add_In. auto.
Qed.

Lemma scan_inv_empty : scan_inv empty_scan.
Proof.
  unfold scan_inv, has_edge. simpl.
  split; [intros _ _ []|]. split; [intros _ []|]. intros s t [v [[] _]].
Qed.

Lemma process_imports_no_external (file_lang : option string) (file_path rel : string)
    (imports : list ImportRecord) (st : ScanState) :
  st_external_deps_map st = [] ->
  st_external_deps_map (fold_left (process_import false file_lang file_path rel) imports st) = [].
Proof.
  revert st. induction imports as [|imp imports IH]; intros st H0; simpl; [exact H0|].
  apply IH. unfold process_import.
  destruct (String.eqb _ _); [exact H0|].
  destruct (is_external_dependency _ _ _); [exact H0 | simpl; exact H0].
Qed.

Lemma scan_files_no_external (ast_parse : string -> outcome (list pystmt)) (fs : FileSystem)
    (inputs : ExecuteInputs) (files : list string) (st st' : ScanState) :
  include_external inputs = false -> st_external_deps_map st = [] ->
  scan_files ast_parse fs inputs files st = Done st' -> st_external_deps_map st' = [].
Proof.
  intros Hinc. revert st. induction files as [|f files IH]; intros st Hst Hs; simpl in Hs.
  - injection Hs as <-. exact Hst.
  - unfold process_file in Hs.
    destruct (parse_file_imports ast_parse fs f (file_lang_of inputs f)) as [imports|e];
      cbn [obind] in Hs; [|discriminate].
    apply IH in Hs; [exact Hs|]. rewrite Hinc.
    apply process_imports_no_external. exact Hst.
Qed.

(** ** Facts about the report lists *)

Lemma fold_set_add_In (l acc : list string) (x : string) :
  In x (fold_left (fun a t => set_add t a) l acc) <-> In x l \/ In x acc.
Proof.
  revert acc. induction l as [|y l IH]; intros acc; simpl.
  - split; [auto | intros [[]|H]; exact H].
  - rewrite IH, set_add_In. split.
    + intros [H|[H|H]]; auto.
    + intros [[H|H]|H]; auto.
Qed.

Lemma no_external_list (set_iter : list string -> list string) (st : ScanState) :
  st_external_deps_map st = [] -> external_list set_iter st = [].
Proof. intros H. unfold external_list. rewrite H. reflexivity. Qed.

Section ReportFacts.

Variable set_iter : list string -> list string.
Hypothesis set_iter_perm : forall l, Permutation (set_iter l) l.

Let iter_In := set_iter_In set_iter set_iter_perm.

Lemma targets_of_In (st : ScanState) (s t : string) :
  has_edge (st_edges st) s t -> In t (targets_of set_iter st).
Proof.
  unfold targets_of. intros [v [Hin Ht]].
  assert (Hgen : forall (d : list (string * list string)) (acc : list string),
    (In t acc \/ exists k w, In (k, w) d /\ In t w) ->
    In t (fold_left (fun (acc : list string) '((_, t_set) : string * list string) =>
                       fold_left (fun a t => set_add t a) (set_iter t_set) acc) d acc)).
  { induction d as [|[k w] d IH]; intros acc H; simpl.
    - destruct H as [H|[k [w [[] _]]]]. exact H.
    - apply IH. destruct H as [H|[k' [w' [[Hkw|Hkw] Hw]]]].
      + left. apply fold_set_add_In. right. exact H.
      + injection Hkw as Hk Hw'. subst. left. apply fold_set_add_In. left.
        apply iter_In. exact Hw.
      + right. exists k', w'. auto. }
  apply Hgen. right. exists s, v. auto.
Qed.

Lemma entry_points_of_spec (st : ScanState) (n : string) :
  scan_inv st -> In n (entry_points_of set_iter st) ->
  In n (st_all_nodes st) /\ (exists t, has_edge (st_edges st) n t)
  /\ (forall s, ~ has_edge (st_edges st) s n).
Proof.
  intros [H1 [H2 H3]] Hn. unfold entry_points_of in Hn. apply filter_In in Hn.
  destruct Hn as [Hn Hb]. apply andb_true_iff in Hb. destruct Hb as [Hnt Hk].
  split; [apply iter_In; exact Hn|]. split.
  - apply mem_In, in_map_iff in Hk. destruct Hk as [[k v] [Hkn Hin]]. simpl in Hkn. subst k.
    pose proof (H1 n v Hin) as Hv. destruct v as [|t v]; [contradiction|].
    exists t, (t :: v). split; [exact Hin | left; reflexivity].
  - intros s Hs. apply targets_of_In in Hs.
    apply negb_true_iff, mem_false_not_In in Hnt. contradiction.
Qed.

Lemma graph_edges_of_In (st : ScanState) (e : GraphEdge) :
  In e (graph_edges_of set_iter st) <->
  exists s t, e = mkEdge s t 1 /\ has_edge (st_edges st) s t.
Proof.
  unfold graph_edges_of, has_edge. rewrite in_flat_map. split.
  - intros [[s v] [Hin He]]. apply in_map_iff in He. destruct He as [t [<- Ht]].
    exists s, t. split; [reflexivity|]. exists v. split; [exact Hin | apply iter_In; exact Ht].
  - intros [s [t [-> [v [Hin Ht]]]]]. exists (s, v). split; [exact Hin|].
    apply in_map_iff. exists t. split; [reflexivity | apply iter_In; exact Ht].
Qed.

Lemma graph_nodes_of_internal (st : ScanState) (n : string) :
  In n (st_all_nodes st) -> In (mkNode n "internal" n) (graph_nodes_of set_iter st).
Proof.
  intros H. unfold graph_nodes_of. apply in_or_app. left.
  apply (in_map (fun n => mkNode n "internal" n)). apply iter_In. exact H.
Qed.

End ReportFacts.

(** ** Entry points, graph edges and the total *)

(** Claim C6: at most 20 entry points are returned, and each one is an
    internal node of the scan with an outgoing edge and no incoming edge;
    no returned internal dependency and no returned graph edge points to
    it. *)
Theorem entry_points_sound (set_iter : list string -> list string) (recursion_room : nat)
    (set_iter_perm : forall l, Permutation (set_iter l) l)
    (ast_parse : string -> outcome (list pystmt)) (fs : FileSystem) (inputs : ExecuteInputs)
    (out : MapOutputs) (Hout : map_dependencies set_iter recursion_room ast_parse fs inputs = Done out) :
  length (entry_points out) <= 20
  /\ forall n, In n (entry_points out) ->
       (forall d, In d (internal_dependencies out) -> dep_target d <> n)
       /\ (forall e, In e (edges (dependency_graph out)) -> edge_target e <> n)
       /\ exists st,
            scan_files ast_parse fs inputs
              (get_source_files fs (source_path inputs) (language inputs)) empty_scan = Done st
            /\ In (mkNode n "internal" n) (graph_nodes_of set_iter st)
            /\ (exists t, has_edge (st_edges st) n t
                          /\ In (mkEdge n t 1) (graph_edges_of set_iter st))
            /\ (forall s, ~ has_edge (st_edges st) s n)
            /\ (forall s, ~ In (mkEdge s n 1) (graph_edges_of set_iter st)).
Proof.
  destruct (map_dependencies_inv _ _ _ _ _ _ Hout) as [[msg ->]|[st [Hs Hb]]].
  - simpl. split; [lia | intros n []].
  - pose proof (scan_files_inv _ _ _ _ _ _ scan_inv_empty Hs) as Hinv.
    apply build_report_inv in Hb. destruct Hb as [_ [_ [Hint [_ [_ [Hedg Hent]]]]]].
    rewrite Hent. split; [apply firstn_le_length|].
    intros n Hn. apply In_firstn in Hn.
    destruct (entry_points_of_spec set_iter set_iter_perm st n Hinv Hn)
      as [Hall [[t Ht] Hno]].
    split; [|split].
    + intros d Hd Heq. rewrite Hint in Hd. apply In_firstn in Hd.
      destruct Hinv as [_ [H2 _]]. apply (Hno (dep_source d)). rewrite <- Heq. exact (H2 d Hd).
    + intros e He Heq. rewrite Hedg in He. apply In_firstn in He.
      apply (graph_edges_of_In set_iter set_iter_perm) in He.
      destruct He as [s [t' [-> Hst]]]. simpl in Heq. subst t'. exact (Hno s Hst).
    + exists st. split; [exact Hs|]. split; [apply graph_nodes_of_internal; assumption|].
      split; [|split].
      * exists t. split; [exact Ht|]. apply (graph_edges_of_In set_iter set_iter_perm).
        exists n, t. auto.
      * exact Hno.
      * intros s Hin. apply (graph_edges_of_In set_iter set_iter_perm) in Hin.
        destruct Hin as [s' [t' [Heq Hst]]]. injection Heq as Hs' Ht'. subst.
        exact (Hno _ Hst).
Qed.

Lemma entry_points_sound_witness :
  (forall l, Permutation (insertion_order l) l)
  /\ map_dependencies insertion_order default_room no_ast rel_pair_fs (scan_request "proj" false)
     = Done rel_pair_report
  /\ length (entry_points rel_pair_report) <= 20
  /\ forall n, In n (entry_points rel_pair_report) ->
       (forall d, In d (internal_dependencies rel_pair_report) -> dep_target d <> n)
       /\ (forall e, In e (edges (dependency_graph rel_pair_report)) -> edge_target e <> n)
       /\ exists st,
            scan_files no_ast rel_pair_fs (scan_request "proj" false)
              (get_source_files rel_pair_fs "proj" (Some "auto")) empty_scan = Done st
            /\ In (mkNode n "internal" n) (graph_nodes_of insertion_order st)
            /\ (exists t, has_edge (st_edges st) n t
                          /\ In (mkEdge n t 1) (graph_edges_of insertion_order st))
            /\ (forall s, ~ has_edge (st_edges st) s n)
            /\ (forall s, ~ In (mkEdge s n 1) (graph_edges_of insertion_order st)).
Proof.
  assert (Hperm : forall l, Permutation (insertion_order l) l) by exact (@Permutation_refl string).
  assert (H : map_dependencies insertion_order default_room no_ast rel_pair_fs (scan_request "proj" false)
              = Done rel_pair_report) by (vm_compute; reflexivity).
  split; [exact Hperm|]. split; [exact H|].
  exact (entry_points_sound insertion_order default_room Hperm no_ast rel_pair_fs _ _ H).
Defined.

(** Claim C7, as the code does it: a report that is not the empty one of
    a missing path or of a directory without source files comes from a
    scan state [st] whose full node list is [graph_nodes_of st] and whose
    full edge list is [graph_edges_of st]; the returned nodes are the first
    200 and the returned edges the first 500 of them; both endpoints of
    every returned edge are internal nodes of the full node list, and they
    are among the returned nodes when the full list has at most 200
    entries. *)
Theorem graph_edges_endpoints (set_iter : list string -> list string) (recursion_room : nat)
    (set_iter_perm : forall l, Permutation (set_iter l) l)
    (ast_parse : string -> outcome (list pystmt)) (fs : FileSystem) (inputs : ExecuteInputs)
    (out : MapOutputs) (Hout : map_dependencies set_iter recursion_room ast_parse fs inputs = Done out) :
  ((exists msg, out = empty_outputs msg)
   /\ nodes (dependency_graph out) = [] /\ edges (dependency_graph out) = [])
  \/ exists st,
       scan_files ast_parse fs inputs
         (get_source_files fs (source_path inputs) (language inputs)) empty_scan = Done st
       /\ nodes (dependency_graph out) = firstn 200 (graph_nodes_of set_iter st)
       /\ edges (dependency_graph out) = firstn 500 (graph_edges_of set_iter st)
       /\ forall e, In e (edges (dependency_graph out)) ->
            In (mkNode (edge_source e) "internal" (edge_source e)) (graph_nodes_of set_iter st)
            /\ In (mkNode (edge_target e) "internal" (edge_target e)) (graph_nodes_of set_iter st)
            /\ (length (graph_nodes_of set_iter st) <= 200 ->
                  In (edge_source e) (map node_id (nodes (dependency_graph out)))
                  /\ In (edge_target e) (map node_id (nodes (dependency_graph out)))).
Proof.
  destruct (map_dependencies_inv _ _ _ _ _ _ Hout) as [[msg ->]|[st [Hs Hb]]].
  - left. split; [exists msg; reflexivity|]. split; reflexivity.
  - right. pose proof (scan_files_inv _ _ _ _ _ _ scan_inv_empty Hs) as [_ [_ H3]].
    apply build_report_inv in Hb. destruct Hb as [_ [_ [_ [_ [Hnod [Hedg _]]]]]].
    exists st. split; [exact Hs|]. split; [exact Hnod|]. split; [exact Hedg|].
    intros e He. rewrite Hedg in He. apply In_firstn in He.
    apply (graph_edges_of_In set_iter set_iter_perm) in He.
    destruct He as [s [t [-> Hst]]]. simpl.
    destruct (H3 s t Hst) as [Hs' Ht'].
    apply (graph_nodes_of_internal set_iter set_iter_perm) in Hs', Ht'.
    split; [exact Hs'|]. split; [exact Ht'|].
    intros Hlen. rewrite Hnod, (firstn_all2 _ Hlen).
    split; [apply (in_map node_id) in Hs' | apply (in_map node_id) in Ht']; assumption.
Qed.

Lemma graph_edges_endpoints_witness :
  (forall l, Permutation (insertion_order l) l)
  /\ map_dependencies insertion_order default_room no_ast (go_fanout_fs 200) (scan_request "proj" false)
     = Done (go_fanout_report 200)
  /\ (((exists msg, go_fanout_report 200 = empty_outputs msg)
       /\ nodes (dependency_graph (go_fanout_report 200)) = []
       /\ edges (dependency_graph (go_fanout_report 200)) = [])
      \/ exists st,
           scan_files no_ast (go_fanout_fs 200) (scan_request "proj" false)
             (get_source_files (go_fanout_fs 200) "proj" (Some "auto")) empty_scan = Done st
           /\ nodes (dependency_graph (go_fanout_report 200)) = firstn 200 (graph_nodes_of insertion_order st)
           /\ edges (dependency_graph (go_fanout_report 200)) = firstn 500 (graph_edges_of insertion_order st)
           /\ forall e, In e (edges (dependency_graph (go_fanout_report 200))) ->
                In (mkNode (edge_source e) "internal" (edge_source e)) (graph_nodes_of insertion_order st)
                /\ In (mkNode (edge_target e) "internal" (edge_target e)) (graph_nodes_of insertion_order st)
                /\ (length (graph_nodes_of insertion_order st) <= 200 ->
                      In (edge_source e) (map node_id (nodes (dependency_graph (go_fanout_report 200))))
                      /\ In (edge_target e)
                           (map node_id (nodes (dependency_graph (go_fanout_report 200)))))).
Proof.
  assert (Hperm : forall l, Permutation (insertion_order l) l) by exact (@Permutation_refl string).
  assert (H : map_dependencies insertion_order default_room no_ast (go_fanout_fs 200) (scan_request "proj" false)
              = Done (go_fanout_report 200)) by (vm_compute; reflexivity).
  split; [exact Hperm|]. split; [exact H|].
  exact (graph_edges_endpoints insertion_order default_room Hperm no_ast _ _ _ H).
Defined.

(** Claim C2, as the code does it: a report that is not the empty one of a
    missing path or of a directory without source files comes from a scan
    state [st]; its [total_dependencies] is the number of internal
    dependencies [st_internal_deps st] plus the number of external
    packages [external_list st], counted before truncation, while the
    returned lists are the first 100 and the first 50 of them; the
    external list is empty when [include_external] is false, and the total
    equals the sum of the returned lengths when nothing is cut. *)
Theorem total_dependencies_count (set_iter : list string -> list string) (recursion_room : nat)
    (ast_parse : string -> outcome (list pystmt)) (fs : FileSystem) (inputs : ExecuteInputs)
    (out : MapOutputs) (Hout : map_dependencies set_iter recursion_room ast_parse fs inputs = Done out) :
  ((exists msg, out = empty_outputs msg)
   /\ total_dependencies out = 0 /\ internal_dependencies out = []
   /\ external_dependencies out = [])
  \/ exists st,
       scan_files ast_parse fs inputs
         (get_source_files fs (source_path inputs) (language inputs)) empty_scan = Done st
       /\ internal_dependencies out = firstn 100 (st_internal_deps st)
       /\ external_dependencies out = firstn 50 (external_list set_iter st)
       /\ total_dependencies out
          = length (st_internal_deps st) + length (external_list set_iter st)
       /\ (include_external inputs = false -> external_list set_iter st = [])
       /\ (length (st_internal_deps st) <= 100 -> length (external_list set_iter st) <= 50 ->
             total_dependencies out
             = length (internal_dependencies out) + length (external_dependencies out)).
Proof.
  destruct (map_dependencies_inv _ _ _ _ _ _ Hout) as [[msg ->]|[st [Hs Hb]]].
  - left. split; [exists msg; reflexivity|]. repeat split; reflexivity.
  - right. pose proof Hb as Hb'. apply build_report_inv in Hb'.
    destruct Hb' as [_ [Htot [Hint [Hext _]]]].
    exists st. split; [exact Hs|].
    split; [exact Hint|]. split; [exact Hext|]. split; [exact Htot|]. split.
    + intros Hinc. apply no_external_list.
      exact (scan_files_no_external _ _ _ _ empty_scan _ Hinc eq_refl Hs).
    + intros Hi He. rewrite Htot, Hint, Hext, (firstn_all2 _ Hi), (firstn_all2 _ He).
      reflexivity.
Qed.

Lemma total_dependencies_count_witness :
  map_dependencies insertion_order default_room no_ast (go_fanout_fs 101) (scan_request "proj" false)
  = Done (go_fanout_report 101)
  /\ (((exists msg, go_fanout_report 101 = empty_outputs msg)
       /\ total_dependencies (go_fanout_report 101) = 0
       /\ internal_dependencies (go_fanout_report 101) = []
       /\ external_dependencies (go_fanout_report 101) = [])
      \/ exists st,
           scan_files no_ast (go_fanout_fs 101) (scan_request "proj" false)
             (get_source_files (go_fanout_fs 101) "proj" (Some "auto")) empty_scan = Done st
           /\ internal_dependencies (go_fanout_report 101) = firstn 100 (st_internal_deps st)
           /\ external_dependencies (go_fanout_report 101) = firstn 50 (external_list insertion_order st)
           /\ total_dependencies (go_fanout_report 101)
              = length (st_internal_deps st) + length (external_list insertion_order st)
           /\ (include_external (scan_request "proj" false) = false -> external_list insertion_order st = [])
           /\ (length (st_internal_deps st) <= 100 -> length (external_list insertion_order st) <= 50 ->
                 total_dependencies (go_fanout_report 101)
                 = length (internal_dependencies (go_fanout_report 101))
                   + length (external_dependencies (go_fanout_report 101)))).
Proof.
  assert (H : map_dependencies insertion_order default_room no_ast (go_fanout_fs 101) (scan_request "proj" false)
              = Done (go_fanout_report 101)) by (vm_compute; reflexivity).
  split; [exact H|].
  exact (total_dependencies_count insertion_order default_room no_ast _ _ _ H).
Defined.

(** ** Reports on concrete directories *)

(** Claim C2 fails once a list is cut: [main.go] with 101 internal imports
    and [include_external] false reports a total of 101 but returns 100
    internal dependencies. *)
Lemma total_exceeds_returned_lists :
  map_dependencies insertion_order default_room no_ast (go_fanout_fs 101) (scan_request "proj" false)
  = Done (go_fanout_report 101)
  /\ include_external (scan_request "proj" false) = false
  /\ total_dependencies (go_fanout_report 101) = 101
  /\ length (internal_dependencies (go_fanout_report 101)) = 100
  /\ external_dependencies (go_fanout_report 101) = [].
Proof.
  split; [vm_compute; reflexivity|]. split; [reflexivity|].
  vm_compute. repeat split; reflexivity.
Qed.

(** Claim C7 fails once the node list is cut: [main.go] importing [./m0]
    to [./m199] has 201 nodes; the edge to [./m199] is returned but
    [./m199] is not among the 200 returned nodes. *)
Lemma graph_edge_target_dropped :
  map_dependencies insertion_order default_room no_ast (go_fanout_fs 200) (scan_request "proj" false)
  = Done (go_fanout_report 200)
  /\ nth_error (edges (dependency_graph (go_fanout_report 200))) 199
     = Some (mkEdge "main.go" "./m199" 1)
  /\ ~ In "./m199" (map node_id (nodes (dependency_graph (go_fanout_report 200)))).
Proof.
  split; [vm_compute; reflexivity|]. split; [vm_compute; reflexivity|].
  apply mem_false_not_In. vm_compute. reflexivity.
Qed.

(** Claim C3 fails when the import targets are not the files' node ids:
    [a.js] imports [./b] and [b.js] imports [./a], yet no cycle is reported
    and both files are entry points; the edges go to the nodes [./b] and
    [./a]. *)
Lemma relative_pair_no_cycle :
  map_dependencies insertion_order default_room no_ast rel_pair_fs (scan_request "proj" false)
  = Done rel_pair_report
  /\ circular_dependencies rel_pair_report = []
  /\ entry_points rel_pair_report = ["a.js"; "b.js"]
  /\ edges (dependency_graph rel_pair_report)
     = [mkEdge "a.js" "./b" 1; mkEdge "b.js" "./a" 1].
Proof.
  split; [vm_compute; reflexivity|]. vm_compute. repeat split; reflexivity.
Qed.

(** ** Two files importing each other *)

Lemma filter_all_false {A} (f : A -> bool) (l : list A) :
  (forall x, In x l -> f x = false) -> filter f l = [].
Proof.
  induction l as [|x l IH]; intros H; simpl; [reflexivity|].
  rewrite (H x (or_introl eq_refl)). apply IH. intros y Hy. exact (H y (or_intror Hy)).
Qed.

Lemma set_iter_singleton (set_iter : list string -> list string)
    (set_iter_perm : forall l, Permutation (set_iter l) l) (x : string) :
  set_iter [x] = [x].
Proof. apply Permutation_length_1_inv. apply Permutation_sym. apply set_iter_perm. Qed.

(** Claim C3, as the code does it: when the two files' import targets are
    each other's node ids (their paths relative to the scanned directory)
    and both are classified internal, the report has exactly the cycle
    [[a; b; a]], no entry point, and both files as internal nodes. *)
Theorem mutual_import_cycle (set_iter : list string -> list string) (recursion_room : nat)
    (set_iter_perm : forall l, Permutation (set_iter l) l)
    (ast_parse : string -> outcome (list pystmt)) (fs : FileSystem) (inputs : ExecuteInputs)
    (fa fb a b : string) (ia ib : ImportRecord) (out : MapOutputs)
    (Hab : String.eqb a b = false)
    (Ha : String.eqb a EmptyString = false) (Hb : String.eqb b EmptyString = false)
    (Hexists : fs_exists fs (source_path inputs) = Done true)
    (Hfiles : get_source_files fs (source_path inputs) (language inputs) = [fa; fb])
    (Hrel_a : relative_path_of fs inputs fa = a) (Hrel_b : relative_path_of fs inputs fb = b)
    (Himp_a : parse_file_imports ast_parse fs fa (file_lang_of inputs fa) = Done [ia])
    (Himp_b : parse_file_imports ast_parse fs fb (file_lang_of inputs fb) = Done [ib])
    (Hmod_a : imp_module ia = b) (Hmod_b : imp_module ib = a)
    (Hint_a : is_external_dependency b (file_lang_of inputs fa) fa = false)
    (Hint_b : is_external_dependency a (file_lang_of inputs fb) fb = false)
    (Hroom : 3 <= recursion_room)
    (Hout : map_dependencies set_iter recursion_room ast_parse fs inputs = Done out) :
  circular_dependencies out = [[a; b; a]]
  /\ entry_points out = []
  /\ In (mkNode a "internal" a) (nodes (dependency_graph out))
  /\ In (mkNode b "internal" b) (nodes (dependency_graph out)).
Proof.
  assert (Hba : String.eqb b a = false) by (rewrite String.eqb_sym; exact Hab).
  pose (st := mkScan [mkInternal a b (imp_type ia) (imp_symbols ia);
                      mkInternal b a (imp_type ib) (imp_symbols ib)]
                     [] [(a, [b]); (b, [a])] [a; b] []).
  assert (Hscan : scan_files ast_parse fs inputs [fa; fb] empty_scan = Done st).
  { cbn [scan_files]. unfold process_file.
    rewrite Himp_a. cbn [obind]. rewrite Hrel_a.
    cbn [fold_left]. unfold process_import. rewrite Hmod_a, Hb, Hint_a.
    cbn [obind]. rewrite Himp_b. cbn [obind]. rewrite Hrel_b.
    cbn [fold_left]. rewrite Hmod_b, Ha, Hint_b.
    unfold st, set_add, mem, dict_set_add. simpl.
    repeat progress (rewrite ?Hab, ?Hba, ?String.eqb_refl; simpl). reflexivity. }
  assert (Hcyc : find_circular_dependencies set_iter recursion_room [(a, [b]); (b, [a])] = Done [[a; b; a]]).
  { unfold find_circular_dependencies, find_circular_dependencies_fuel.
    destruct recursion_room as [|[|[|room]]]; [lia..|].
    simpl. unfold get_set.
    repeat progress (unfold set_add, mem; rewrite ?Hab, ?Hba, ?String.eqb_refl,
                       ?(set_iter_singleton _ set_iter_perm); simpl).
    reflexivity. }
  unfold map_dependencies in Hout. rewrite Hexists, Hfiles in Hout.
  cbv beta iota zeta in Hout. rewrite Hscan in Hout. cbn [obind] in Hout.
  apply build_report_inv in Hout.
  destruct Hout as [Hc [_ [_ [_ [Hnod [_ Hent]]]]]].
  assert (Hall : forall x, In x (set_iter (st_all_nodes st)) -> x = a \/ x = b).
  { intros x Hx. apply (proj1 (set_iter_In set_iter set_iter_perm _ _)) in Hx. unfold st in Hx. simpl in Hx. destruct Hx as [<-|[<-|[]]]; auto. }
  assert (Hnodes : forall x, x = a \/ x = b ->
            In (mkNode x "internal" x) (nodes (dependency_graph out))).
  { intros x Hx.
    assert (Hlen : length (graph_nodes_of set_iter st) <= 200).
    { unfold graph_nodes_of. rewrite length_app, !length_map,
        (Permutation_length (set_iter_perm _)), (Permutation_length (set_iter_perm _)).
      simpl. lia. }
    rewrite Hnod, (firstn_all2 _ Hlen).
    apply (graph_nodes_of_internal set_iter set_iter_perm).
    unfold st. simpl. destruct Hx as [->| ->]; auto. }
  split; [|split; [|split]].
  - simpl in Hc. rewrite Hcyc in Hc. injection Hc as Hc. symmetry. exact Hc.
  - rewrite Hent. unfold entry_points_of. rewrite filter_all_false; [reflexivity|].
    intros x Hx. apply Hall in Hx.
    assert (Ht : In x (targets_of set_iter st)).
    { apply (targets_of_In set_iter set_iter_perm st (if String.eqb x a then b else a)).
      destruct Hx as [->| ->]; [rewrite String.eqb_refl | rewrite Hba];
        [exists [a] | exists [b]]; simpl; auto. }
    apply mem_In in Ht. rewrite Ht. reflexivity.
  - apply Hnodes. left. reflexivity.
  - apply Hnodes. right. reflexivity.
Qed.

Lemma mutual_import_cycle_witness :
  (forall l, Permutation (insertion_order l) l)
  /\ String.eqb ".a.js" ".b.js" = false
  /\ String.eqb ".a.js" EmptyString = false /\ String.eqb ".b.js" EmptyString = false
  /\ fs_exists js_pair_fs (source_path (scan_request "proj" false)) = Done true
  /\ get_source_files js_pair_fs (source_path (scan_request "proj" false))
       (language (scan_request "proj" false)) = ["proj/.a.js"; "proj/.b.js"]
  /\ relative_path_of js_pair_fs (scan_request "proj" false) "proj/.a.js" = ".a.js"
  /\ relative_path_of js_pair_fs (scan_request "proj" false) "proj/.b.js" = ".b.js"
  /\ parse_file_imports no_ast js_pair_fs "proj/.a.js"
       (file_lang_of (scan_request "proj" false) "proj/.a.js")
     = Done [mkImport ".b.js" "default" ["b"]]
  /\ parse_file_imports no_ast js_pair_fs "proj/.b.js"
       (file_lang_of (scan_request "proj" false) "proj/.b.js")
     = Done [mkImport ".a.js" "default" ["a"]]
  /\ is_external_dependency ".b.js" (file_lang_of (scan_request "proj" false) "proj/.a.js")
       "proj/.a.js" = false
  /\ is_external_dependency ".a.js" (file_lang_of (scan_request "proj" false) "proj/.b.js")
       "proj/.b.js" = false
  /\ 3 <= default_room
  /\ map_dependencies insertion_order default_room no_ast js_pair_fs (scan_request "proj" false)
     = Done js_pair_report
  /\ (circular_dependencies js_pair_report = [[".a.js"; ".b.js"; ".a.js"]]
      /\ entry_points js_pair_report = []
      /\ In (mkNode ".a.js" "internal" ".a.js") (nodes (dependency_graph js_pair_report))
      /\ In (mkNode ".b.js" "internal" ".b.js") (nodes (dependency_graph js_pair_report))).
Proof.
  split; [exact (@Permutation_refl string)|].
  do 11 (split; [vm_compute; reflexivity|]).
  split; [unfold default_room; lia|].
  split; [vm_compute; reflexivity|].
  apply (mutual_import_cycle insertion_order default_room (@Permutation_refl string) no_ast js_pair_fs
           (scan_request "proj" false) "proj/.a.js" "proj/.b.js" ".a.js" ".b.js"
           (mkImport ".b.js" "default" ["b"]) (mkImport ".a.js" "default" ["a"]));
    first [unfold default_room; lia | vm_compute; reflexivity].
Defined.

(** * Further properties *)

Lemma is_walk_tail (edges : list (string * list string)) (x : string) (l : list string) :
  is_walk edges (x :: l) -> is_walk edges l.
Proof. destruct l as [|y l]; simpl; tauto. Qed.

Lemma is_walk_skipn (edges : list (string * list string)) (i : nat) (l : list string) :
  is_walk edges l -> is_walk edges (skipn i l).
Proof.
  revert l. induction i as [|i IH]; intros [|x l] H; simpl; auto.
  apply IH. exact (is_walk_tail _ _ _ H).
Qed.

Lemma is_walk_snoc (edges : list (string * list string)) (l : list string) (x y : string) :
  is_walk edges (l ++ [x]) -> In y (get_set edges x) -> is_walk edges ((l ++ [x]) ++ [y]).
Proof.
  induction l as [|a l IH]; intros Hw Hy; simpl in *.
  - auto.
  - destruct l as [|b l]; simpl in *.
    + destruct Hw as [Hx _]. auto.
    + destruct Hw as [Hb Hw]. split; [exact Hb | exact (IH Hw Hy)].
Qed.

Lemma NoDup_firstn {A} (n : nat) (l : list A) : NoDup l -> NoDup (firstn n l).
Proof.
  intros H. rewrite <- (firstn_skipn n l) in H. exact (NoDup_app_remove_r _ _ H).
Qed.

Section CycleWalks.

Variable set_iter : list string -> list string.
Hypothesis set_iter_perm : forall l, Permutation (set_iter l) l.

Lemma dfs_walks (f : nat) (edges : list (string * list string)) (node : string)
    (path : list string) (s : CycState) :
  rec_stack s = path -> NoDup path -> is_walk edges (path ++ [node]) ->
  match dfs set_iter f edges node path s with
  | Done s' => rec_stack s' = path /\ (cycles_ok edges (cycles s) -> cycles_ok edges (cycles s'))
  | Raise _ => True
  end.
Proof.
  revert node path s. induction f as [|f IH]; intros node path s Hst Hnd Hw; simpl; [exact I|].
  destruct (mem node (rec_stack s)) eqn:Hm.
  - destruct (index_of node path) as [i|] eqn:Hi; [|exact I].
    apply index_of_nth in Hi. destruct (skipn_nth_error _ _ _ Hi) as [rest Hrest].
    destruct (1 <? length (skipn i path ++ [node])) eqn:Hlen; simpl; [|split; auto].
    destruct (in_dec (list_eq_dec string_dec) (skipn i path ++ [node]) (cycles s))
      as [Hin|Hnin]; simpl; split; auto.
    intros [Hnd' Hf]. split.
    + apply NoDup_app; [exact Hnd' | constructor; [intros []|constructor] |].
      intros c Hc [<-|[]]. contradiction.
    + apply Forall_app. split; [exact Hf|]. constructor; [|constructor].
      exists node, rest. rewrite Hrest. split; [reflexivity|]. split.
      * rewrite <- Hrest. rewrite <- (firstn_skipn i path) in Hnd.
        exact (NoDup_app_remove_l _ _ Hnd).
      * rewrite <- Hrest.
        assert (Hlt : i < length path) by (apply nth_error_Some; congruence).
        pose proof (is_walk_skipn edges i _ Hw) as Hw'.
        rewrite skipn_app in Hw'. replace (i - length path) with 0 in Hw' by lia.
        exact Hw'.
  - destruct (mem node (visited s)); [simpl; auto|].
    assert (Hnin : ~ In node path) by (rewrite <- Hst; apply mem_false_not_In; exact Hm).
    pose proof (for_each_inv
      (fun s' => rec_stack s' = path ++ [node]
                 /\ (cycles_ok edges (cycles s) -> cycles_ok edges (cycles s')))
      (fun _ => True)
      (set_iter (get_set edges node))
      (fun neighbor s => dfs set_iter f edges neighbor (path ++ [node]) s)
      (mkCyc (cycles s) (set_add node (visited s)) (rec_stack s ++ [node]))) as Hloop.
    simpl in Hloop. rewrite Hst in Hloop.
    specialize (Hloop (conj eq_refl (fun H => H))).
    forward_premise Hloop.
    { intros n s' Hn [Hs' Hc'].
      apply (proj1 (set_iter_In set_iter set_iter_perm _ _)) in Hn.
      assert (Hnd2 : NoDup (path ++ [node])).
      { apply Permutation_NoDup with (l := node :: path);
          [apply Permutation_cons_append | constructor; assumption]. }
      pose proof (IH n _ s' Hs' Hnd2 (is_walk_snoc _ _ _ _ Hw Hn)) as Hn'.
      destruct (dfs _ _ _ _ _ _); [|exact I].
      destruct Hn' as [Hn1 Hn2]. split; auto. }
    rewrite Hst.
    destruct (for_each _ _ _) as [s2|e]; simpl; [|exact I].
    destruct Hloop as [Hs2 Hc2]. split; [|exact Hc2].
    rewrite Hs2. apply removelast_last.
Qed.

Lemma dfs_roots_walks (fuel : nat) (edges : list (string * list string)) (roots : list string)
    (s : CycState) :
  rec_stack s = [] -> cycles_ok edges (cycles s) ->
  match dfs_roots set_iter fuel edges roots s with
  | Done s' => cycles_ok edges (cycles s')
  | Raise _ => True
  end.
Proof.
  revert s. induction roots as [|r roots IH]; intros s Hst Hok; simpl; [auto|].
  destruct (mem r (visited s)); [apply IH; auto|].
  pose proof (dfs_walks fuel edges r [] s Hst (NoDup_nil _) I) as Hd.
  destruct (dfs set_iter fuel edges r [] s) as [s'|e]; simpl; [|exact I].
  destruct Hd as [Hd1 Hd2]. apply IH; auto.
Qed.

Lemma find_circular_dependencies_fuel_walks (fuel : nat) (edges : list (string * list string))
    (cs : list (list string)) :
  find_circular_dependencies_fuel set_iter fuel edges = Done cs -> cycles_ok edges cs.
Proof.
  unfold find_circular_dependencies_fuel.
  assert (H0 : cycles_ok edges (cycles (mkCyc [] [] []))) by (split; constructor).
  pose proof (dfs_roots_walks fuel edges (map fst edges) (mkCyc [] [] []) eq_refl H0) as H.
  destruct (dfs_roots _ _ _ _ _) as [s|e]; cbn [obind]; [|discriminate].
  intros Hc. injection Hc as <-. destruct H as [Hnd Hf]. split.
  - apply (NoDup_firstn 10). exact Hnd.
  - rewrite Forall_forall in *. intros c Hc. apply Hf. exact (In_firstn _ 10 _ Hc).
Qed.

End CycleWalks.

Lemma get_set_has_edge (d : list (string * list string)) (k x : string) :
  In x (get_set d k) -> has_edge d k x.
Proof.
  unfold get_set. destruct (find _ d) as [[k' v]|] eqn:Hf; [|simpl; tauto].
  intros Hx. apply find_some in Hf. destruct Hf as [Hin Hk].
  apply String.eqb_eq in Hk. subst k'. exists v. auto.
Qed.

Lemma is_walk_pair (edges : list (string * list string)) (pre post : list string) (u v : string) :
  is_walk edges (pre ++ u :: v :: post) -> In v (get_set edges u).
Proof.
  induction pre as [|a pre IH]; simpl; [tauto|].
  intros H. apply IH. destruct pre as [|b pre]; simpl in *; tauto.
Qed.

Lemma is_walk_incoming (edges : list (string * list string)) (x : string) (l : list string) :
  is_walk edges (x :: l) -> forall y, In y l -> exists z, In y (get_set edges z).
Proof.
  revert x. induction l as [|a l IH]; intros x Hw y Hy; [destruct Hy|].
  simpl in Hw. destruct Hw as [Ha Hw]. destruct Hy as [<-|Hy]; [eauto|].
  exact (IH a Hw y Hy).
Qed.

Lemma simple_cycle_incoming (edges : list (string * list string)) (c : list string) :
  simple_cycle edges c -> forall y, In y c -> exists z, has_edge edges z y.
Proof.
  intros [x [m [-> [_ Hw]]]] y Hy.
  assert (Hy' : In y (m ++ [x])).
  { destruct Hy as [<-|Hy]; [apply in_or_app; right; left; reflexivity | exact Hy]. }
  destruct (is_walk_incoming _ _ _ Hw y Hy') as [z Hz].
  exists z. apply get_set_has_edge. exact Hz.
Qed.

Lemma ranked_step (rank : string -> nat) (edges : list (string * list string)) (x y : string) :
  ranked_by rank edges = true -> In y (get_set edges x) -> rank x < rank y.
Proof.
  intros Hr Hy. apply get_set_has_edge in Hy. destruct Hy as [v [Hin Hy]].
  unfold ranked_by in Hr. rewrite forallb_forall in Hr.
  specialize (Hr _ Hin). simpl in Hr. rewrite forallb_forall in Hr.
  apply Nat.ltb_lt. exact (Hr y Hy).
Qed.

Lemma last_default {A} (l : list A) (d1 d2 : A) : l <> [] -> last l d1 = last l d2.
Proof.
  induction l as [|a l IH]; intros H; [congruence|].
  destruct l as [|b l]; [reflexivity|]. apply IH. discriminate.
Qed.

Lemma ranked_walk (rank : string -> nat) (edges : list (string * list string)) (x : string)
    (l : list string) :
  ranked_by rank edges = true -> is_walk edges (x :: l) -> l <> [] -> rank x < rank (last l x).
Proof.
  intros Hr. revert x. induction l as [|a l IH]; intros x Hw Hne; [congruence|].
  simpl in Hw. destruct Hw as [Ha Hw]. pose proof (ranked_step _ _ _ _ Hr Ha).
  destruct l as [|b l]; [exact H|].
  specialize (IH a Hw ltac:(discriminate)).
  change (last (a :: b :: l) x) with (last (b :: l) x).
  rewrite (last_default (b :: l) x a ltac:(discriminate)). lia.
Qed.

Lemma ranked_no_simple_cycle (rank : string -> nat) (edges : list (string * list string))
    (c : list string) :
  ranked_by rank edges = true -> ~ simple_cycle edges c.
Proof.
  intros Hr [x [m [-> [_ Hw]]]].
  pose proof (ranked_walk rank edges x (m ++ [x]) Hr Hw) as H.
  rewrite last_last in H. assert (m ++ [x] <> []) by (destruct m; discriminate).
  specialize (H H0). lia.
Qed.

Lemma process_import_recorded (include_ext : bool) (file_lang : option string)
    (file_path rel : string) (st : ScanState) (imp : ImportRecord) :
  edges_recorded st -> edges_recorded (process_import include_ext file_lang file_path rel st imp).
Proof.
  intros H. unfold process_import.
  destruct (String.eqb (imp_module imp) EmptyString); [exact H|].
  destruct (is_external_dependency _ _ _); [destruct include_ext; exact H|].
  intros s t Hst. simpl in *. apply dict_set_add_has_edge in Hst.
  destruct Hst as [[-> ->]|Hst].
  - eexists. split; [apply in_or_app; right; left; reflexivity|]. simpl. auto.
  - destruct (H s t Hst) as [d [Hd Hsd]]. exists d. split; [apply in_or_app; left; exact Hd | exact Hsd].
Qed.

Lemma process_imports_recorded (include_ext : bool) (file_lang : option string)
    (file_path rel : string) (imports : list ImportRecord) (st : ScanState) :
  edges_recorded st ->
  edges_recorded (fold_left (process_import include_ext file_lang file_path rel) imports st).
Proof.
  revert st. induction imports as [|imp imports IH]; intros st H; simpl; [exact H|].
  apply IH. apply process_import_recorded. exact H.
Qed.

Lemma scan_files_recorded (ast_parse : string -> outcome (list pystmt)) (fs : FileSystem)
    (inputs : ExecuteInputs) (files : list string) (st st' : ScanState) :
  edges_recorded st -> scan_files ast_parse fs inputs files st = Done st' -> edges_recorded st'.
Proof.
  revert st. induction files as [|f files IH]; intros st Hinv Hs; simpl in Hs.
  - injection Hs as <-. exact Hinv.
  - unfold process_file in Hs.
    destruct (parse_file_imports ast_parse fs f (file_lang_of inputs f)) as [imports|e];
      cbn [obind] in Hs; [|discriminate].
    apply IH in Hs; [exact Hs|].
    apply process_imports_recorded. exact Hinv.
Qed.

Lemma edges_recorded_empty : edges_recorded empty_scan.
Proof. intros s t [v [[] _]]. Qed.

(** Extra X1 ([find_circular_dependencies]): the returned cycles are pairwise distinct, and each one is a closed walk x, m.., x along the adjacency map whose nodes x, m.. are pairwise distinct. *)
Theorem find_circular_dependencies_simple_cycles (set_iter : list string -> list string)
    (set_iter_perm : forall l, Permutation (set_iter l) l)
    (fuel : nat) (edges : list (string * list string)) (cs : list (list string))
    (Hcs : find_circular_dependencies_fuel set_iter fuel edges = Done cs) :
  NoDup cs
  /\ forall c, In c cs ->
       exists x m, c = x :: m ++ [x] /\ NoDup (x :: m) /\ is_walk edges c.
Proof.
  destruct (find_circular_dependencies_fuel_walks set_iter set_iter_perm fuel edges cs Hcs)
    as [Hnd Hf].
  split; [exact Hnd|]. rewrite Forall_forall in Hf. exact Hf.
Qed.

Lemma find_circular_dependencies_simple_cycles_witness :
  (forall l, Permutation (insertion_order l) l)
  /\ find_circular_dependencies insertion_order default_room triangle_edges
     = Done [["a"; "b"; "c"; "a"]; ["a"; "b"; "a"]]
  /\ NoDup [["a"; "b"; "c"; "a"]; ["a"; "b"; "a"]]
  /\ forall c, In c [["a"; "b"; "c"; "a"]; ["a"; "b"; "a"]] ->
       exists x m, c = x :: m ++ [x] /\ NoDup (x :: m) /\ is_walk triangle_edges c.
Proof.
  assert (Hperm : forall l, Permutation (insertion_order l) l) by exact (@Permutation_refl string).
  assert (H : find_circular_dependencies insertion_order default_room triangle_edges
              = Done [["a"; "b"; "c"; "a"]; ["a"; "b"; "a"]]) by (vm_compute; reflexivity).
  split; [exact Hperm|]. split; [exact H|].
  exact (find_circular_dependencies_simple_cycles insertion_order Hperm _ _ _ H).
Defined.

(** Extra X2 ([find_circular_dependencies]): if some ranking of the nodes strictly increases along every edge of the adjacency map, no cycle is ever reported, at any recursion room; with room for more levels than the map mentions node occurrences, the result is the empty list. *)
Theorem ranked_graph_no_cycles (set_iter : list string -> list string) (recursion_room : nat)
    (set_iter_perm : forall l, Permutation (set_iter l) l)
    (rank : string -> nat) (edges : list (string * list string))
    (Hrank : ranked_by rank edges = true) :
  (forall cs, find_circular_dependencies set_iter recursion_room edges = Done cs -> cs = [])
  /\ (length (graph_universe edges) < recursion_room ->
      find_circular_dependencies set_iter recursion_room edges = Done []).
Proof.
  assert (Hnil : forall cs, find_circular_dependencies set_iter recursion_room edges = Done cs ->
                  cs = []).
  { intros cs Hcs. destruct cs as [|c cs]; [reflexivity|].
    destruct (find_circular_dependencies_fuel_walks set_iter set_iter_perm _ edges _ Hcs)
      as [_ Hf].
    inversion Hf as [|? ? Hc _]. exfalso. exact (ranked_no_simple_cycle rank edges c Hrank Hc). }
  split; [exact Hnil|]. intros Hlen.
  destruct (find_circular_dependencies_done set_iter set_iter_perm recursion_room edges Hlen)
    as [cs Hcs].
  unfold find_circular_dependencies. rewrite Hcs. rewrite (Hnil cs Hcs). reflexivity.
Qed.

Lemma ranked_graph_no_cycles_witness :
  (forall l, Permutation (insertion_order l) l)
  /\ ranked_by layer layered_edges = true
  /\ length (graph_universe layered_edges) < default_room
  /\ find_circular_dependencies insertion_order default_room layered_edges = Done [].
Proof.
  assert (Hperm : forall l, Permutation (insertion_order l) l) by exact (@Permutation_refl string).
  assert (H : ranked_by layer layered_edges = true) by (vm_compute; reflexivity).
  assert (Hlen : length (graph_universe layered_edges) < default_room) by (vm_compute; lia).
  split; [exact Hperm|]. split; [exact H|]. split; [exact Hlen|].
  exact (proj2 (ranked_graph_no_cycles insertion_order default_room Hperm layer layered_edges H)
           Hlen).
Defined.

Lemma report_cycles (set_iter : list string -> list string) (recursion_room : nat)
    (set_iter_perm : forall l, Permutation (set_iter l) l)
    (ast_parse : string -> outcome (list pystmt)) (fs : FileSystem) (inputs : ExecuteInputs)
    (out : MapOutputs) (Hout : map_dependencies set_iter recursion_room ast_parse fs inputs = Done out) :
  circular_dependencies out = []
  \/ exists st,
       scan_files ast_parse fs inputs
         (get_source_files fs (source_path inputs) (language inputs)) empty_scan = Done st
       /\ build_report set_iter recursion_room
            (length (get_source_files fs (source_path inputs) (language inputs))) st = Done out
       /\ cycles_ok (st_edges st) (circular_dependencies out).
Proof.
  destruct (map_dependencies_inv _ _ _ _ _ _ Hout) as [[msg ->]|[st [Hs Hb]]]; [left; reflexivity|].
  right. exists st. split; [exact Hs|]. split; [exact Hb|].
  apply build_report_inv in Hb. destruct Hb as [Hc _].
  exact (find_circular_dependencies_fuel_walks set_iter set_iter_perm _ _ _ Hc).
Qed.

(** Extra X3 ([map_dependencies], [find_circular_dependencies]): the reported cycles are pairwise distinct, every node of a cycle is an internal graph node, and every step u, v of a cycle is a graph edge of weight 1 backed by an internal dependency from u to v. *)
Theorem circular_dependencies_follow_imports (set_iter : list string -> list string) (recursion_room : nat)
    (set_iter_perm : forall l, Permutation (set_iter l) l)
    (ast_parse : string -> outcome (list pystmt)) (fs : FileSystem) (inputs : ExecuteInputs)
    (out : MapOutputs) (Hout : map_dependencies set_iter recursion_room ast_parse fs inputs = Done out) :
  NoDup (circular_dependencies out)
  /\ forall c, In c (circular_dependencies out) ->
       exists st,
         scan_files ast_parse fs inputs
           (get_source_files fs (source_path inputs) (language inputs)) empty_scan = Done st
         /\ (forall u, In u c -> In (mkNode u "internal" u) (graph_nodes_of set_iter st))
         /\ (forall pre u v post, c = pre ++ u :: v :: post ->
               In (mkEdge u v 1) (graph_edges_of set_iter st)
               /\ exists d, In d (st_internal_deps st) /\ dep_source d = u /\ dep_target d = v).
Proof.
  destruct (report_cycles set_iter recursion_room set_iter_perm _ _ _ _ Hout) as [-> | [st [Hs [_ [Hnd Hf]]]]].
  { split; [constructor | intros c []]. }
  split; [exact Hnd|]. intros c Hc. exists st. split; [exact Hs|].
  rewrite Forall_forall in Hf. specialize (Hf c Hc).
  pose proof (scan_files_inv _ _ _ _ _ _ scan_inv_empty Hs) as [_ [_ H3]].
  pose proof (scan_files_recorded _ _ _ _ _ _ edges_recorded_empty Hs) as Hrec.
  split.
  - intros u Hu. destruct (simple_cycle_incoming _ _ Hf u Hu) as [z Hz].
    apply (graph_nodes_of_internal set_iter set_iter_perm). exact (proj2 (H3 z u Hz)).
  - intros pre u v post Hcuv. destruct Hf as [x [m [_ [_ Hw]]]]. rewrite Hcuv in Hw.
    apply is_walk_pair, get_set_has_edge in Hw. split.
    + apply (graph_edges_of_In set_iter set_iter_perm). exists u, v. auto.
    + exact (Hrec u v Hw).
Qed.

Lemma circular_dependencies_follow_imports_witness :
  (forall l, Permutation (insertion_order l) l)
  /\ map_dependencies insertion_order default_room no_ast js_pair_fs (scan_request "proj" false)
     = Done js_pair_report
  /\ NoDup (circular_dependencies js_pair_report)
  /\ forall c, In c (circular_dependencies js_pair_report) ->
       exists st,
         scan_files no_ast js_pair_fs (scan_request "proj" false)
           (get_source_files js_pair_fs "proj" (Some "auto")) empty_scan = Done st
         /\ (forall u, In u c -> In (mkNode u "internal" u) (graph_nodes_of insertion_order st))
         /\ (forall pre u v post, c = pre ++ u :: v :: post ->
               In (mkEdge u v 1) (graph_edges_of insertion_order st)
               /\ exists d, In d (st_internal_deps st) /\ dep_source d = u /\ dep_target d = v).
Proof.
  assert (Hperm : forall l, Permutation (insertion_order l) l) by exact (@Permutation_refl string).
  assert (H : map_dependencies insertion_order default_room no_ast js_pair_fs (scan_request "proj" false)
              = Done js_pair_report) by (vm_compute; reflexivity).
  split; [exact Hperm|]. split; [exact H|].
  exact (circular_dependencies_follow_imports insertion_order default_room Hperm _ _ _ _ H).
Defined.

(** Extra X4 ([map_dependencies]): no entry point lies on a reported cycle. *)
Theorem entry_points_off_cycles (set_iter : list string -> list string) (recursion_room : nat)
    (set_iter_perm : forall l, Permutation (set_iter l) l)
    (ast_parse : string -> outcome (list pystmt)) (fs : FileSystem) (inputs : ExecuteInputs)
    (out : MapOutputs) (Hout : map_dependencies set_iter recursion_room ast_parse fs inputs = Done out) :
  forall n c, In n (entry_points out) -> In c (circular_dependencies out) -> ~ In n c.
Proof.
  intros n c Hn Hc Hnc.
  destruct (report_cycles set_iter recursion_room set_iter_perm _ _ _ _ Hout) as [Hnil | [st [Hs [Hb [_ Hf]]]]].
  { rewrite Hnil in Hc. destruct Hc. }
  pose proof (scan_files_inv _ _ _ _ _ _ scan_inv_empty Hs) as Hinv.
  apply build_report_inv in Hb. destruct Hb as [_ [_ [_ [_ [_ [_ Hent]]]]]].
  rewrite Hent in Hn. apply In_firstn in Hn.
  destruct (entry_points_of_spec set_iter set_iter_perm st n Hinv Hn) as [_ [_ Hno]].
  rewrite Forall_forall in Hf.
  destruct (simple_cycle_incoming _ _ (Hf c Hc) n Hnc) as [z Hz]. exact (Hno z Hz).
Qed.

Lemma insert_desc_perm {A} (key : A -> nat) (x : A) (l : list A) :
  Permutation (insert_desc key x l) (x :: l).
Proof.
  induction l as [|y l IH]; simpl; [reflexivity|].
  destruct (key y <? key x); [reflexivity|].
  rewrite IH. apply perm_swap.
Qed.

Lemma sort_desc_perm_aux {A} (key : A -> nat) (l acc : list A) :
  Permutation (fold_left (fun acc x => insert_desc key x acc) l acc) (l ++ acc).
Proof.
  revert acc. induction l as [|x l IH]; intros acc; simpl; [reflexivity|].
  rewrite IH, insert_desc_perm. apply Permutation_sym, Permutation_middle.
Qed.

Lemma sort_desc_perm {A} (key : A -> nat) (l : list A) : Permutation (sort_desc key l) l.
Proof. unfold sort_desc. rewrite sort_desc_perm_aux, app_nil_r. reflexivity. Qed.

Lemma insert_desc_sorted {A} (key : A -> nat) (x : A) (l : list A) :
  Sorted (desc_by key) l -> Sorted (desc_by key) (insert_desc key x l).
Proof.
  induction l as [|y l IH]; intros Hs; simpl; [repeat constructor|].
  destruct (key y <? key x) eqn:Hxy.
  - apply Nat.ltb_lt in Hxy. constructor; [exact Hs|]. constructor. unfold desc_by. lia.
  - apply Nat.ltb_ge in Hxy. apply Sorted_inv in Hs. destruct Hs as [Hs Hh].
    constructor; [exact (IH Hs)|].
    destruct l as [|z l]; simpl.
    + constructor. unfold desc_by. lia.
    + destruct (key z <? key x); constructor; [unfold desc_by; lia|].
      inversion Hh. assumption.
Qed.

Lemma sort_desc_sorted {A} (key : A -> nat) (l : list A) : Sorted (desc_by key) (sort_desc key l).
Proof.
  unfold sort_desc. generalize (@nil A) (Sorted_nil (desc_by key)).
  induction l as [|x l IH]; intros acc Hacc; simpl; [exact Hacc|].
  apply IH. apply insert_desc_sorted. exact Hacc.
Qed.

Lemma Sorted_map {A B} (R : A -> A -> Prop) (R' : B -> B -> Prop) (f : A -> B) (l : list A) :
  (forall a b, R a b -> R' (f a) (f b)) -> Sorted R l -> Sorted R' (map f l).
Proof.
  intros HR Hs. induction Hs as [|a l Hs IH Hh]; simpl; constructor; [exact IH|].
  destruct Hh; simpl; constructor. apply HR. assumption.
Qed.

Lemma Sorted_firstn {A} (R : A -> A -> Prop) (n : nat) (l : list A) :
  Sorted R l -> Sorted R (firstn n l).
Proof.
  revert l. induction n as [|n IH]; intros l Hs; simpl; [constructor|].
  destruct l as [|a l]; [constructor|]. apply Sorted_inv in Hs. destruct Hs as [Hs Hh].
  constructor; [exact (IH l Hs)|].
  destruct n, l; simpl; constructor. inversion Hh. assumption.
Qed.

Lemma desc_by_trans {A} (key : A -> nat) : Relations_1.Transitive (desc_by key).
Proof. intros a b c. unfold desc_by. lia. Qed.

Lemma StronglySorted_app_rel {A} (R : A -> A -> Prop) (l1 l2 : list A) :
  StronglySorted R (l1 ++ l2) -> forall a b, In a l1 -> In b l2 -> R a b.
Proof.
  induction l1 as [|x l1 IH]; intros Hs a b Ha Hb; [destruct Ha|].
  apply StronglySorted_inv in Hs. destruct Hs as [Hs Hall].
  destruct Ha as [<-|Ha].
  - rewrite Forall_forall in Hall. apply Hall, in_or_app. right. exact Hb.
  - exact (IH Hs a b Ha Hb).
Qed.

Lemma set_add_NoDup (x : string) (l : list string) : NoDup l -> NoDup (set_add x l).
Proof.
  intros H. unfold set_add. destruct (mem x l) eqn:Hm; [exact H|].
  apply mem_false_not_In in Hm.
  apply Permutation_NoDup with (l := x :: l); [apply Permutation_cons_append|constructor; auto].
Qed.

Lemma set_add_length (x : string) (l : list string) : length (set_add x l) <= S (length l).
Proof. unfold set_add. destruct (mem x l); [lia|]. rewrite length_app. simpl. lia. Qed.

Lemma dedup_spec_aux (l acc : list string) :
  NoDup acc ->
  NoDup (fold_left (fun s x => set_add x s) l acc)
  /\ (forall y, In y (fold_left (fun s x => set_add x s) l acc) <-> In y l \/ In y acc)
  /\ length (fold_left (fun s x => set_add x s) l acc) <= length l + length acc.
Proof.
  revert acc. induction l as [|x l IH]; intros acc Hacc; simpl.
  - split; [exact Hacc|]. split; [intros y; tauto | lia].
  - destruct (IH (set_add x acc) (set_add_NoDup x acc Hacc)) as [H1 [H2 H3]].
    split; [exact H1|]. split.
    + intros y. rewrite H2, set_add_In. simpl. split; intros; intuition congruence.
    + pose proof (set_add_length x acc). lia.
Qed.

Lemma dedup_spec (l : list string) :
  NoDup (dedup l) /\ (forall y, In y (dedup l) <-> In y l) /\ length (dedup l) <= length l.
Proof.
  destruct (dedup_spec_aux l [] (NoDup_nil _)) as [H1 [H2 H3]].
  unfold dedup. split; [exact H1|]. split.
  - intros y. rewrite H2. simpl. tauto.
  - simpl in H3. lia.
Qed.

Lemma dict_set_add_keys (k x : string) (d : list (string * list string)) (k' : string) :
  In k' (map fst (dict_set_add k x d)) <-> k' = k \/ In k' (map fst d).
Proof.
  induction d as [|[k0 v0] d IH]; simpl; [split; intros; intuition congruence|].
  destruct (String.eqb k0 k) eqn:Hk; simpl.
  - apply String.eqb_eq in Hk. subst. split; intros; intuition congruence.
  - rewrite IH. split; intros; intuition congruence.
Qed.

Lemma dict_set_add_nodup (k x : string) (d : list (string * list string)) :
  NoDup (map fst d) -> (forall k' v, In (k', v) d -> NoDup v) ->
  NoDup (map fst (dict_set_add k x d))
  /\ (forall k' v, In (k', v) (dict_set_add k x d) -> NoDup v).
Proof.
  induction d as [|[k0 v0] d IH]; simpl; intros Hk Hv.
  - split; [repeat constructor; intros []|]. intros k' v [H|[]]. injection H as _ <-.
    repeat constructor. intros [].
  - apply NoDup_cons_iff in Hk. destruct Hk as [Hk0 Hk].
    destruct (String.eqb k0 k) eqn:Hkk; simpl.
    + split; [constructor; assumption|]. intros k' v [H|H].
      * injection H as _ <-. apply set_add_NoDup. exact (Hv k0 v0 (or_introl eq_refl)).
      * exact (Hv k' v (or_intror H)).
    + destruct (IH Hk (fun k' v H => Hv k' v (or_intror H))) as [H1 H2]. split.
      * constructor; [|exact H1]. rewrite dict_set_add_keys. intros [->|H]; [|contradiction].
        rewrite String.eqb_refl in Hkk. discriminate.
      * intros k' v [H|H]; [injection H as _ <-; exact (Hv k0 v0 (or_introl eq_refl))|].
        exact (H2 k' v H).
Qed.

Lemma ext_map_add_keys (root rel : string) (m : list (string * (list string * nat))) (k' : string) :
  In k' (map fst (ext_map_add root rel m)) <-> k' = root \/ In k' (map fst m).
Proof.
  induction m as [|[k0 [u0 c0]] m IH]; simpl; [split; intros; intuition congruence|].
  destruct (String.eqb k0 root) eqn:Hk; simpl.
  - apply String.eqb_eq in Hk. subst. split; intros; intuition congruence.
  - rewrite IH. split; intros; intuition congruence.
Qed.

Lemma ext_map_add_nodup (root rel : string) (m : list (string * (list string * nat))) :
  NoDup (map fst m) -> NoDup (map fst (ext_map_add root rel m)).
Proof.
  induction m as [|[k0 [u0 c0]] m IH]; simpl; intros Hk.
  - repeat constructor. intros [].
  - apply NoDup_cons_iff in Hk. destruct Hk as [Hk0 Hk].
    destruct (String.eqb k0 root) eqn:Hkk; simpl; [constructor; assumption|].
    constructor; [|exact (IH Hk)]. rewrite ext_map_add_keys. intros [->|H]; [|contradiction].
    rewrite String.eqb_refl in Hkk. discriminate.
Qed.

Lemma ext_map_add_In (root rel : string) (m : list (string * (list string * nat)))
    (k : string) (u : list string) (c : nat) :
  In (k, (u, c)) (ext_map_add root rel m) ->
  (k = root /\ ((u = [rel] /\ c = 1)
                \/ exists u0 c0, In (k, (u0, c0)) m /\ u = u0 ++ [rel] /\ c = S c0))
  \/ In (k, (u, c)) m.
Proof.
  induction m as [|[k0 [u0 c0]] m IH]; simpl; intros H.
  - destruct H as [H|[]]. injection H as <- <- <-. auto.
  - destruct (String.eqb k0 root) eqn:Hk; simpl in H.
    + apply String.eqb_eq in Hk. subst k0. destruct H as [H|H].
      * injection H as <- <- <-. left. split; [reflexivity|]. right. exists u0, c0. auto.
      * auto.
    + destruct H as [H|H]; [auto|]. destruct (IH H) as [[Hr [Hn|[u1 [c1 [Hin Hu]]]]]|Hin]; auto.
      left. split; [exact Hr|]. right. exists u1, c1. auto.
Qed.

Lemma contains_char_split_first_sep (sep : ascii) (s : string) :
  contains_char sep (split_first sep s) = false.
Proof.
  induction s as [|c s IH]; simpl; [reflexivity|].
  destruct (Ascii.eqb c sep) eqn:Hc; [reflexivity|].
  unfold contains_char in *. simpl. rewrite IH. rewrite Ascii.eqb_sym, Hc. reflexivity.
Qed.

Lemma contains_char_split_first (c0 sep : ascii) (s : string) :
  contains_char c0 s = false -> contains_char c0 (split_first sep s) = false.
Proof.
  induction s as [|c s IH]; simpl; [reflexivity|].
  unfold contains_char in *. simpl. intros H. apply orb_false_iff in H. destruct H as [H1 H2].
  destruct (Ascii.eqb c sep); [reflexivity|]. simpl. rewrite H1. apply IH. exact H2.
Qed.

Lemma process_import_nodup (include_ext : bool) (file_lang : option string)
    (file_path rel : string) (st : ScanState) (imp : ImportRecord) :
  scan_nodup st -> scan_nodup (process_import include_ext file_lang file_path rel st imp).
Proof.
  intros [H1 [H2 [H3 [H4 H5]]]]. unfold process_import.
  destruct (String.eqb (imp_module imp) EmptyString); [repeat split; auto|].
  destruct (is_external_dependency _ _ _).
  - destruct include_ext; [|repeat split; auto].
    repeat split; simpl; auto using set_add_NoDup, ext_map_add_nodup.
  - destruct (dict_set_add_nodup rel (imp_module imp) _ H1 H2) as [H1' H2'].
    repeat split; simpl; auto using set_add_NoDup.
Qed.

Lemma process_import_ext (include_ext : bool) (file_lang : option string)
    (file_path rel : string) (st : ScanState) (imp : ImportRecord) :
  In rel (st_all_nodes st) -> ext_inv st ->
  ext_inv (process_import include_ext file_lang file_path rel st imp)
  /\ In rel (st_all_nodes (process_import include_ext file_lang file_path rel st imp)).
Proof.
  intros Hrel H. unfold process_import.
  destruct (String.eqb (imp_module imp) EmptyString); [auto|].
  destruct (is_external_dependency _ _ _).
  - destruct include_ext; [|auto]. simpl. split; [|exact Hrel].
    intros k u c Hin. apply ext_map_add_In in Hin.
    destruct Hin as [[-> [[-> ->]|[u0 [c0 [Hin [-> ->]]]]]]|Hin].
    + split; [reflexivity|]. split; [lia|]. split; [intros y [<-|[]]; exact Hrel|].
      split; [apply set_add_In; auto|].
      split; [apply contains_char_split_first_sep|].
      apply contains_char_split_first, contains_char_split_first_sep.
    + destruct (H _ _ _ Hin) as [Hl [Hc [Hu [Hk [Hd Hs]]]]].
      split; [rewrite length_app; simpl; lia|]. split; [lia|]. split.
      * intros y Hy. apply in_app_iff in Hy. destruct Hy as [Hy|[<-|[]]]; auto.
      * split; [apply set_add_In; auto|]. auto.
    + destruct (H _ _ _ Hin) as [Hl [Hc [Hu [Hk [Hd Hs]]]]].
      repeat split; auto. apply set_add_In. auto.
  - simpl. split; [|apply set_add_In; auto].
    intros k u c Hin. destruct (H _ _ _ Hin) as [Hl [Hc [Hu [Hk [Hd Hs]]]]].
    repeat split; auto. intros y Hy. apply set_add_In. auto.
Qed.

Lemma process_imports_nodup_ext (include_ext : bool) (file_lang : option string)
    (file_path rel : string) (imports : list ImportRecord) (st : ScanState) :
  In rel (st_all_nodes st) -> scan_nodup st -> ext_inv st ->
  scan_nodup (fold_left (process_import include_ext file_lang file_path rel) imports st)
  /\ ext_inv (fold_left (process_import include_ext file_lang file_path rel) imports st).
Proof.
  revert st. induction imports as [|imp imports IH]; intros st Hrel Hn He; simpl; [auto|].
  destruct (process_import_ext include_ext file_lang file_path rel st imp Hrel He).
  apply IH; auto. apply process_import_nodup. exact Hn.
Qed.

Lemma scan_files_nodup_ext (ast_parse : string -> outcome (list pystmt)) (fs : FileSystem)
    (inputs : ExecuteInputs) (files : list string) (st st' : ScanState) :
  scan_nodup st -> ext_inv st -> scan_files ast_parse fs inputs files st = Done st' ->
  scan_nodup st' /\ ext_inv st'.
Proof.
  revert st. induction files as [|f files IH]; intros st Hn He Hs; simpl in Hs.
  - injection Hs as <-. auto.
  - unfold process_file in Hs.
    destruct (parse_file_imports ast_parse fs f (file_lang_of inputs f)) as [imports|e];
      cbn [obind] in Hs; [|discriminate].
    destruct Hn as [H1 [H2 [H3 [H4 H5]]]].
    destruct (process_imports_nodup_ext (include_external inputs) (file_lang_of inputs f) f
                (relative_path_of fs inputs f) imports
                (mkScan (st_internal_deps st) (st_external_deps_map st) (st_edges st)
                   (set_add (relative_path_of fs inputs f) (st_all_nodes st))
                   (st_external_nodes st))) as [Hn' He'].
    + simpl. apply set_add_In. auto.
    + repeat split; simpl; auto using set_add_NoDup.
    + intros k u c Hin. simpl in Hin. destruct (He k u c Hin) as [Hl [Hc [Hu [Hk [Hd Hs']]]]].
      repeat split; auto. intros y Hy. simpl. apply set_add_In. auto.
    + exact (IH _ Hn' He' Hs).
Qed.

Lemma scan_empty_nodup_ext : scan_nodup empty_scan /\ ext_inv empty_scan.
Proof. split; [repeat split; simpl; try constructor; intros _ _ []|intros k u c []]. Qed.

Lemma NoDup_map_inj {A B} (f : A -> B) (l : list A) :
  (forall x y, f x = f y -> x = y) -> NoDup l -> NoDup (map f l).
Proof.
  intros Hf Hl. induction Hl as [|x l Hx Hl IH]; simpl; constructor; [|exact IH].
  intros H. apply in_map_iff in H. destruct H as [y [Hy Hin]]. apply Hf in Hy. subst. contradiction.
Qed.

Lemma NoDup_keys_filter {V} (f : string * V -> bool) (d : list (string * V)) :
  NoDup (map fst d) -> NoDup (map fst (filter f d)).
Proof.
  induction d as [|[k v] d IH]; simpl; intros H; [constructor|].
  apply NoDup_cons_iff in H. destruct H as [Hk H].
  destruct (f (k, v)); simpl; [|exact (IH H)].
  constructor; [|exact (IH H)]. intros Hin. apply Hk.
  apply in_map_iff in Hin. destruct Hin as [[k' v'] [Hk' Hin]]. simpl in Hk'. subst k'.
  apply filter_In in Hin. apply in_map_iff. exists (k, v'). split; [reflexivity | apply Hin].
Qed.

Lemma NoDup_same_length (l1 l2 : list string) :
  NoDup l1 -> NoDup l2 -> (forall x, In x l1 <-> In x l2) -> length l1 = length l2.
Proof.
  intros H1 H2 H. apply Permutation_length. apply NoDup_Permutation; assumption.
Qed.

(** The count of [highly_depended] is the number of distinct importers *)
Lemma dependent_count_spec (st : ScanState) (t : string) :
  scan_inv st -> edges_recorded st -> scan_nodup st ->
  dependents st t (map fst (filter (fun '(_, deps) => mem t deps) (st_edges st)))
  /\ length (filter (fun '(_, deps) => mem t deps) (st_edges st))
     = length (map fst (filter (fun '(_, deps) => mem t deps) (st_edges st))).
Proof.
  intros [_ [H2 _]] Hrec [Hk _]. rewrite length_map. split; [|reflexivity]. split.
  - apply NoDup_keys_filter. exact Hk.
  - intros s. split.
    + intros Hs. apply in_map_iff in Hs. destruct Hs as [[s' v] [Hs' Hin]]. simpl in Hs'. subst s'.
      apply filter_In in Hin. destruct Hin as [Hin Hm]. apply mem_In in Hm.
      apply Hrec. exists v. auto.
    + intros [d [Hd [Hs Ht]]]. pose proof (H2 d Hd) as [v [Hin Hv]]. rewrite Hs, Ht in *.
      apply in_map_iff. exists (s, v). split; [reflexivity|]. apply filter_In.
      split; [exact Hin | apply mem_In; exact Hv].
Qed.

Section ReportExtras.

Variable set_iter : list string -> list string.
Hypothesis set_iter_perm : forall l, Permutation (set_iter l) l.

Let iter_In := set_iter_In set_iter set_iter_perm.

Lemma set_iter_NoDup (l : list string) : NoDup l -> NoDup (set_iter l).
Proof. intros H. apply (Permutation_NoDup (Permutation_sym (set_iter_perm l))). exact H. Qed.

Lemma targets_of_spec (st : ScanState) (t : string) :
  NoDup (targets_of set_iter st)
  /\ (In t (targets_of set_iter st) <-> exists s, has_edge (st_edges st) s t).
Proof.
  unfold targets_of.
  assert (Hgen : forall (d : list (string * list string)) (acc : list string),
    NoDup acc ->
    NoDup (fold_left (fun (acc : list string) '((_, t_set) : string * list string) =>
                       fold_left (fun a t => set_add t a) (set_iter t_set) acc) d acc)
    /\ (In t (fold_left (fun (acc : list string) '((_, t_set) : string * list string) =>
                       fold_left (fun a t => set_add t a) (set_iter t_set) acc) d acc)
        <-> In t acc \/ exists k w, In (k, w) d /\ In t w)).
  { induction d as [|[k w] d IH]; intros acc Hacc; simpl.
    - split; [exact Hacc|]. split; [auto|]. intros [H|[k [w [[] _]]]]. exact H.
    - destruct (IH (fold_left (fun a t => set_add t a) (set_iter w) acc)) as [Hn Hi].
      + exact (proj1 (dedup_spec_aux (set_iter w) acc Hacc)).
      + split; [exact Hn|]. rewrite Hi, fold_set_add_In, iter_In. split.
        * intros [[H|H]|[k' [w' [Hkw Hw]]]]; [right; exists k, w; auto|auto|].
          right. exists k', w'. auto.
        * intros [H|[k' [w' [[Hkw|Hkw] Hw]]]]; [auto| |].
          -- injection Hkw as <- <-. auto.
          -- right. exists k', w'. auto. }
  destruct (Hgen (st_edges st) [] (NoDup_nil _)) as [Hn Hi]. split; [exact Hn|].
  rewrite Hi. unfold has_edge. split.
  - intros [[]|[k [w [Hin Hw]]]]. exists k, w. auto.
  - intros [s [v [Hin Hv]]]. right. exists s, v. auto.
Qed.

End ReportExtras.

Lemma build_report_highly (set_iter : list string -> list string) (recursion_room : nat) (n : nat) (st : ScanState)
    (out : MapOutputs) :
  build_report set_iter recursion_room n st = Done out ->
  highly_depended out = highly_depended_of set_iter st.
Proof.
  unfold build_report.
  destruct (find_circular_dependencies set_iter recursion_room (st_edges st)) as [cs|e]; cbn [obind];
    [|discriminate].
  intros H. injection H as <-. reflexivity.
Qed.

Lemma firstn_split_In {A} (n : nat) (l : list A) (x : A) :
  In x l -> ~ In x (firstn n l) -> length (firstn n l) = n /\ In x (skipn n l).
Proof.
  intros Hx Hn. rewrite <- (firstn_skipn n l) in Hx. apply in_app_iff in Hx.
  destruct Hx as [Hx|Hx]; [contradiction|]. split; [|exact Hx].
  apply firstn_length_le. destruct (Nat.le_gt_cases n (length l)) as [H|H]; [exact H|].
  rewrite skipn_all2 in Hx; [destruct Hx | lia].
Qed.

(** Extra X5 ([map_dependencies]): highly_depended holds at most 10 distinct paths in non-increasing order of their counts; each count is the number of distinct files with an internal dependency on that path, and a target left out only when the list is full of entries with a count at least its own. *)
Theorem highly_depended_ranked (set_iter : list string -> list string) (recursion_room : nat)
    (set_iter_perm : forall l, Permutation (set_iter l) l)
    (ast_parse : string -> outcome (list pystmt)) (fs : FileSystem) (inputs : ExecuteInputs)
    (files : list string) (st : ScanState) (n : nat) (out : MapOutputs)
    (Hs : scan_files ast_parse fs inputs files empty_scan = Done st)
    (Hb : build_report set_iter recursion_room n st = Done out) :
  length (highly_depended out) <= 10
  /\ Sorted (fun a b => hd_dependents_count b <= hd_dependents_count a) (highly_depended out)
  /\ NoDup (map hd_path (highly_depended out))
  /\ (forall h, In h (highly_depended out) ->
        exists srcs, dependents st (hd_path h) srcs /\ srcs <> []
                     /\ hd_dependents_count h = length srcs)
  /\ (forall t srcs, dependents st t srcs -> srcs <> [] ->
        ~ In t (map hd_path (highly_depended out)) ->
        length (highly_depended out) = 10
        /\ forall h, In h (highly_depended out) -> length srcs <= hd_dependents_count h).
Proof.
  pose proof (scan_files_inv _ _ _ _ _ _ scan_inv_empty Hs) as Hinv.
  pose proof (scan_files_recorded _ _ _ _ _ _ edges_recorded_empty Hs) as Hrec.
  destruct (scan_files_nodup_ext _ _ _ _ _ _ (proj1 scan_empty_nodup_ext)
              (proj2 scan_empty_nodup_ext) Hs) as [Hnd _].
  apply build_report_highly in Hb. rewrite Hb.
  pose (cnt := fun t => length (filter (fun '(_, deps) => mem t deps) (st_edges st))).
  pose (dc := map (fun t => (t, cnt t)) (set_iter (targets_of set_iter st))).
  pose (mk := fun '((p, c) : string * nat) => mkHighly p c).
  pose (Lsorted := sort_desc snd dc).
  change (highly_depended_of set_iter st) with (firstn 10 (map mk Lsorted)).
  assert (Hperm : Permutation Lsorted dc) by apply sort_desc_perm.
  assert (Hdc : forall p c, In (p, c) Lsorted -> In p (targets_of set_iter st) /\ c = cnt p).
  { intros p c Hin. apply (Permutation_in _ Hperm) in Hin. unfold dc in Hin.
    apply in_map_iff in Hin. destruct Hin as [t [Ht Hin]]. injection Ht as <- <-.
    split; [apply (set_iter_In set_iter set_iter_perm); exact Hin | reflexivity]. }
  assert (Hsrcs : forall p, In p (targets_of set_iter st) ->
            exists srcs, dependents st p srcs /\ srcs <> [] /\ cnt p = length srcs).
  { intros p Hp. destruct (dependent_count_spec st p Hinv Hrec Hnd) as [Hdep Hlen].
    eexists. split; [exact Hdep|]. split; [|exact Hlen].
    apply (targets_of_spec set_iter set_iter_perm st p) in Hp. destruct Hp as [s Hsp].
    destruct (Hrec s p Hsp) as [d Hd].
    intros Hnil. pose proof (proj2 (proj2 Hdep s) (ex_intro _ d Hd)) as Hin. rewrite Hnil in Hin. destruct Hin. }
  assert (Hlen_dep : forall t srcs, dependents st t srcs -> cnt t = length srcs).
  { intros t srcs Hdep. destruct (dependent_count_spec st t Hinv Hrec Hnd) as [Hdep' Hlen].
    unfold cnt. rewrite Hlen. apply NoDup_same_length; [apply Hdep' | apply Hdep |].
    intros x. rewrite (proj2 Hdep' x), (proj2 Hdep x). reflexivity. }
  assert (Hmap_path : map hd_path (map mk Lsorted) = map fst Lsorted).
  { rewrite map_map. apply map_ext. intros [p c]. reflexivity. }
  split; [apply firstn_le_length|]. split.
  { apply Sorted_firstn. apply (Sorted_map (desc_by snd)); [|apply sort_desc_sorted].
    intros [p1 c1] [p2 c2]. unfold desc_by. simpl. auto. }
  split.
  { rewrite <- firstn_map, Hmap_path. apply NoDup_firstn.
    apply (Permutation_NoDup (Permutation_sym (Permutation_map fst Hperm))).
    unfold dc. rewrite map_map. simpl. rewrite map_id.
    apply set_iter_NoDup; [exact set_iter_perm|]. apply (targets_of_spec set_iter set_iter_perm st EmptyString). }
  split.
  { intros h Hh. apply In_firstn in Hh. apply in_map_iff in Hh.
    destruct Hh as [[p c] [<- Hin]]. destruct (Hdc p c Hin) as [Hp ->]. simpl.
    exact (Hsrcs p Hp). }
  intros t srcs Hdep Hne Hnot.
  assert (Ht : In (t, cnt t) Lsorted).
  { apply (Permutation_in _ (Permutation_sym Hperm)). unfold dc.
    apply (in_map (fun t => (t, cnt t))). apply (set_iter_In set_iter set_iter_perm).
    apply (targets_of_spec set_iter set_iter_perm st t).
    destruct srcs as [|s srcs]; [congruence|].
    destruct (proj1 (proj2 Hdep s) (or_introl eq_refl)) as [d [Hd [Hds Hdt]]].
    exists s. rewrite <- Hds, <- Hdt. destruct Hinv as [_ [H2 _]]. exact (H2 d Hd). }
  assert (Hnot' : ~ In (t, cnt t) (firstn 10 Lsorted)).
  { intros Hin. apply Hnot. rewrite <- firstn_map, Hmap_path, firstn_map.
    apply (in_map fst _ _ Hin). }
  destruct (firstn_split_In 10 Lsorted _ Ht Hnot') as [H10 Hskip].
  split; [rewrite length_firstn, length_map; rewrite length_firstn in H10; exact H10|].
  intros h Hh. rewrite firstn_map in Hh. apply in_map_iff in Hh.
  destruct Hh as [[p c] [<- Hin]]. simpl.
  pose proof (Sorted_StronglySorted (desc_by_trans snd) (sort_desc_sorted snd dc)) as Hss.
  fold Lsorted in Hss. rewrite <- (firstn_skipn 10 Lsorted) in Hss.
  pose proof (StronglySorted_app_rel _ _ _ Hss (p, c) (t, cnt t) Hin Hskip) as Hle.
  unfold desc_by in Hle. simpl in Hle. rewrite <- (Hlen_dep t srcs Hdep). exact Hle.
Qed.

(** Extra X6 ([map_dependencies]): external_dependencies is sorted by non-increasing import count with distinct names; each name is a root package without dot or slash, its count is at least 1, its used_in list has at most 10 distinct internal nodes and no more entries than the count, and the name is an external graph node. *)
Theorem external_dependencies_shape (set_iter : list string -> list string) (recursion_room : nat)
    (set_iter_perm : forall l, Permutation (set_iter l) l)
    (ast_parse : string -> outcome (list pystmt)) (fs : FileSystem) (inputs : ExecuteInputs)
    (files : list string) (st : ScanState) (n : nat) (out : MapOutputs)
    (Hs : scan_files ast_parse fs inputs files empty_scan = Done st)
    (Hb : build_report set_iter recursion_room n st = Done out) :
  Sorted (fun a b => ext_import_count b <= ext_import_count a) (external_dependencies out)
  /\ NoDup (map ext_name (external_dependencies out))
  /\ forall e, In e (external_dependencies out) ->
       contains_char "." (ext_name e) = false /\ contains_char "/" (ext_name e) = false
       /\ 1 <= ext_import_count e
       /\ NoDup (ext_used_in e) /\ length (ext_used_in e) <= 10
       /\ length (ext_used_in e) <= ext_import_count e
       /\ In (mkNode (ext_name e) "external" (ext_name e)) (graph_nodes_of set_iter st)
       /\ (forall u, In u (ext_used_in e) -> In (mkNode u "internal" u) (graph_nodes_of set_iter st)).
Proof.
  destruct (scan_files_nodup_ext _ _ _ _ _ _ (proj1 scan_empty_nodup_ext)
              (proj2 scan_empty_nodup_ext) Hs) as [[_ [_ [_ [_ Hkeys]]]] Hext].
  apply build_report_inv in Hb. destruct Hb as [_ [_ [_ [Hext_out _]]]].
  rewrite Hext_out.
  pose (key := fun '((_, (_, count)) : string * (list string * nat)) => count).
  pose (mkE := fun '((name, (used, count)) : string * (list string * nat)) =>
                 mkExternal name (firstn 10 (set_iter (dedup used))) count).
  pose (Ls := sort_desc key (st_external_deps_map st)).
  change (firstn 50 (external_list set_iter st)) with (firstn 50 (map mkE Ls)).
  assert (Hperm : Permutation Ls (st_external_deps_map st)) by apply sort_desc_perm.
  split.
  { apply Sorted_firstn. apply (Sorted_map (desc_by key)); [|apply sort_desc_sorted].
    intros [k1 [u1 c1]] [k2 [u2 c2]]. unfold desc_by. simpl. auto. }
  split.
  { rewrite <- firstn_map. apply NoDup_firstn. rewrite map_map.
    replace (map (fun x => ext_name (mkE x)) Ls) with (map fst Ls)
      by (apply map_ext; intros [k [u c]]; reflexivity).
    exact (Permutation_NoDup (Permutation_sym (Permutation_map fst Hperm)) Hkeys). }
  intros e He. apply In_firstn in He. apply in_map_iff in He.
  destruct He as [[k [u c]] [<- Hin]]. apply (Permutation_in _ Hperm) in Hin.
  destruct (Hext k u c Hin) as [Hl [Hc [Hu [Hk [Hd Hsl]]]]].
  destruct (dedup_spec u) as [Hdn [Hdi Hdl]].
  unfold mkE. cbn [ext_name ext_used_in ext_import_count]. split; [exact Hd|]. split; [exact Hsl|]. split; [exact Hc|].
  split; [apply NoDup_firstn, set_iter_NoDup; assumption|].
  split; [apply firstn_le_length|].
  split.
  { rewrite length_firstn, (Permutation_length (set_iter_perm _)). lia. }
  split.
  { unfold graph_nodes_of. apply in_or_app. right.
    apply (in_map (fun n => mkNode n "external" n)). apply (set_iter_In set_iter set_iter_perm).
    exact Hk. }
  intros x Hx. apply In_firstn, (set_iter_In set_iter set_iter_perm), Hdi in Hx.
  apply (graph_nodes_of_internal set_iter set_iter_perm). apply Hu. exact Hx.
Qed.

Lemma highly_depended_of_targets (set_iter : list string -> list string)
    (set_iter_perm : forall l, Permutation (set_iter l) l) (st : ScanState) (h : HighlyDepended) :
  In h (highly_depended_of set_iter st) -> In (hd_path h) (targets_of set_iter st).
Proof.
  unfold highly_depended_of. intros Hh. apply In_firstn, in_map_iff in Hh.
  destruct Hh as [[p c] [<- Hin]]. apply (Permutation_in _ (sort_desc_perm _ _)) in Hin.
  apply in_map_iff in Hin. destruct Hin as [t [Ht Hin]]. injection Ht as <- _.
  simpl. apply (set_iter_In set_iter set_iter_perm). exact Hin.
Qed.

(** Extra X7 ([map_dependencies]): no entry point appears in highly_depended. *)
Theorem entry_points_not_highly_depended (set_iter : list string -> list string) (recursion_room : nat)
    (set_iter_perm : forall l, Permutation (set_iter l) l)
    (ast_parse : string -> outcome (list pystmt)) (fs : FileSystem) (inputs : ExecuteInputs)
    (out : MapOutputs) (Hout : map_dependencies set_iter recursion_room ast_parse fs inputs = Done out) :
  forall n h, In n (entry_points out) -> In h (highly_depended out) -> hd_path h <> n.
Proof.
  intros n h Hn Hh Heq.
  destruct (map_dependencies_inv _ _ _ _ _ _ Hout) as [[msg ->]|[st [Hs Hb]]]; [destruct Hn|].
  pose proof (scan_files_inv _ _ _ _ _ _ scan_inv_empty Hs) as Hinv.
  pose proof (build_report_highly _ _ _ _ _ Hb) as Hhd.
  apply build_report_inv in Hb. destruct Hb as [_ [_ [_ [_ [_ [_ Hent]]]]]].
  rewrite Hent in Hn. apply In_firstn in Hn.
  destruct (entry_points_of_spec set_iter set_iter_perm st n Hinv Hn) as [_ [_ Hno]].
  rewrite Hhd in Hh. apply (highly_depended_of_targets set_iter set_iter_perm) in Hh.
  apply (targets_of_spec set_iter set_iter_perm st) in Hh. destruct Hh as [s Hs'].
  rewrite Heq in Hs'. exact (Hno s Hs').
Qed.

Lemma graph_edges_of_NoDup (set_iter : list string -> list string)
    (set_iter_perm : forall l, Permutation (set_iter l) l) (d : list (string * list string)) :
  NoDup (map fst d) -> (forall k v, In (k, v) d -> NoDup v) ->
  NoDup (flat_map (fun '(src, targets) => map (fun t => mkEdge src t 1) (set_iter targets)) d).
Proof.
  induction d as [|[k v] d IH]; simpl; intros Hk Hv; [constructor|].
  apply NoDup_cons_iff in Hk. destruct Hk as [Hk0 Hk].
  apply NoDup_app.
  - apply NoDup_map_inj; [intros x y H; injection H; auto|].
    apply (set_iter_NoDup set_iter set_iter_perm). exact (Hv k v (or_introl eq_refl)).
  - apply IH; [exact Hk|]. intros k' v' H. exact (Hv k' v' (or_intror H)).
  - intros e He1 He2. apply in_map_iff in He1. destruct He1 as [t [<- _]].
    apply in_flat_map in He2. destruct He2 as [[k' v'] [Hin He2]].
    apply in_map_iff in He2. destruct He2 as [t' [Heq _]]. injection Heq as -> _.
    apply Hk0. apply (in_map fst _ _ Hin).
Qed.

(** Extra X8 ([map_dependencies]): the graph nodes, the graph edges and the entry points of a report hold no duplicates. *)
Theorem report_no_duplicates (set_iter : list string -> list string) (recursion_room : nat)
    (set_iter_perm : forall l, Permutation (set_iter l) l)
    (ast_parse : string -> outcome (list pystmt)) (fs : FileSystem) (inputs : ExecuteInputs)
    (out : MapOutputs) (Hout : map_dependencies set_iter recursion_room ast_parse fs inputs = Done out) :
  NoDup (nodes (dependency_graph out))
  /\ NoDup (edges (dependency_graph out))
  /\ NoDup (entry_points out).
Proof.
  destruct (map_dependencies_inv _ _ _ _ _ _ Hout) as [[msg ->]|[st [Hs Hb]]].
  { simpl. repeat split; constructor. }
  destruct (scan_files_nodup_ext _ _ _ _ _ _ (proj1 scan_empty_nodup_ext)
              (proj2 scan_empty_nodup_ext) Hs) as [[H1 [H2 [H3 [H4 _]]]] _].
  apply build_report_inv in Hb. destruct Hb as [_ [_ [_ [_ [Hnod [Hedg Hent]]]]]].
  rewrite Hnod, Hedg, Hent. split; [|split]; apply NoDup_firstn.
  - unfold graph_nodes_of. apply NoDup_app.
    + apply NoDup_map_inj; [intros x y H; injection H; auto|].
      apply (set_iter_NoDup set_iter set_iter_perm). exact H3.
    + apply NoDup_map_inj; [intros x y H; injection H; auto|].
      apply (set_iter_NoDup set_iter set_iter_perm). exact H4.
    + intros x Hx1 Hx2. apply in_map_iff in Hx1, Hx2.
      destruct Hx1 as [a [<- _]]. destruct Hx2 as [b [Hb _]]. discriminate Hb.
  - unfold graph_edges_of. apply graph_edges_of_NoDup; assumption.
  - unfold entry_points_of. apply NoDup_filter.
    apply (set_iter_NoDup set_iter set_iter_perm). exact H3.
Qed.

Lemma external_list_counts (set_iter : list string -> list string) (st : ScanState) :
  map (fun e => (ext_name e, ext_import_count e)) (external_list set_iter st)
  = map (fun '((name, (_, count)) : string * (list string * nat)) => (name, count))
        (sort_desc (fun '((_, (_, count)) : string * (list string * nat)) => count)
                   (st_external_deps_map st)).
Proof. unfold external_list. rewrite map_map. apply map_ext. intros [k [u c]]. reflexivity. Qed.

(** Extra X9 ([map_dependencies]): the set iteration order does not affect internal_dependencies, total_dependencies or the names and counts of external_dependencies. *)
Theorem report_independent_of_set_order (set_iter1 set_iter2 : list string -> list string) (recursion_room : nat)
    (ast_parse : string -> outcome (list pystmt)) (fs : FileSystem) (inputs : ExecuteInputs)
    (out1 out2 : MapOutputs)
    (H1 : map_dependencies set_iter1 recursion_room ast_parse fs inputs = Done out1)
    (H2 : map_dependencies set_iter2 recursion_room ast_parse fs inputs = Done out2) :
  internal_dependencies out1 = internal_dependencies out2
  /\ total_dependencies out1 = total_dependencies out2
  /\ map (fun e => (ext_name e, ext_import_count e)) (external_dependencies out1)
     = map (fun e => (ext_name e, ext_import_count e)) (external_dependencies out2).
Proof.
  unfold map_dependencies in H1, H2.
  destruct (fs_exists fs (source_path inputs)) as [[|]|e]; [| |discriminate H1].
  2:{ injection H1 as <-. injection H2 as <-. auto. }
  destruct (get_source_files fs (source_path inputs) (language inputs)) as [|f fs'].
  { injection H1 as <-. injection H2 as <-. auto. }
  destruct (scan_files ast_parse fs inputs (f :: fs') empty_scan) as [st|e];
    cbn [obind] in H1, H2; [|discriminate].
  apply build_report_inv in H1, H2.
  destruct H1 as [_ [Ht1 [Hi1 [He1 _]]]]. destruct H2 as [_ [Ht2 [Hi2 [He2 _]]]].
  rewrite Hi1, Hi2, Ht1, Ht2, He1, He2, <- !firstn_map, !external_list_counts.
  split; [reflexivity|]. split; [|reflexivity].
  f_equal. unfold external_list. rewrite !length_map. reflexivity.
Qed.

Lemma scan_files_raise (ast_parse : string -> outcome (list pystmt)) (fs : FileSystem)
    (inputs : ExecuteInputs) (files : list string) (f : string) (e : exn) :
  In f files -> parse_file_imports ast_parse fs f (file_lang_of inputs f) = Raise e ->
  forall st, exists e', scan_files ast_parse fs inputs files st = Raise e'.
Proof.
  induction files as [|g files IH]; intros Hf He st; [destruct Hf|].
  simpl. unfold process_file.
  destruct (parse_file_imports ast_parse fs g (file_lang_of inputs g)) as [imps|e'] eqn:Hg;
    cbn [obind]; [|eauto].
  destruct Hf as [->|Hf]; [congruence|]. apply IH; assumption.
Qed.

(** Extra X12 ([execute], [parse_python_imports]): a Python source file on which the parser raises an error other than a syntax error makes the endpoint answer HTTP 500 with code INTERNAL_ERROR. *)
Theorem execute_internal_error (Any : Type) (set_iter : list string -> list string) (recursion_room : nat)
    (ast_parse : string -> outcome (list pystmt)) (fs : FileSystem) (str_exn : exn -> string)
    (elapsed_ms : nat) (request : ExecuteRequest Any) (f code : string) (e : exn)
    (Hexists : fs_exists fs (source_path (inputs request)) = Done true)
    (Hf : In f (get_source_files fs (source_path (inputs request)) (language (inputs request))))
    (Hread : fs_read fs f = Some code)
    (Hpy : file_lang_of (inputs request) f = Some "python")
    (Hparse : ast_parse code = Raise e) (He : e <> SyntaxError) :
  exists e', execute set_iter recursion_room ast_parse fs str_exn elapsed_ms request
             = HTTPException 500 "INTERNAL_ERROR" (str_exn e').
Proof.
  assert (Hpf : parse_file_imports ast_parse fs f (file_lang_of (inputs request) f) = Raise e).
  { unfold parse_file_imports. rewrite Hread, Hpy. simpl. unfold parse_python_imports.
    rewrite Hparse. destruct e; [contradiction | reflexivity..]. }
  destruct (scan_files_raise ast_parse fs (inputs request) _ f e Hf Hpf empty_scan) as [e' Hs].
  exists e'. unfold execute, map_dependencies. rewrite Hexists. cbv beta iota zeta.
  destruct (get_source_files _ _ _) as [|g files]; [destruct Hf|].
  rewrite Hs. reflexivity.
Qed.

Lemma process_import_empty_module (include_ext : bool) (file_lang : option string)
    (file_path rel : string) (st : ScanState) (imp : ImportRecord) :
  imp_module imp = EmptyString -> process_import include_ext file_lang file_path rel st imp = st.
Proof. intros H. unfold process_import. rewrite H. reflexivity. Qed.

(** Extra X13 ([PythonImportVisitor], [map_dependencies]): a Python file whose statements are all module-less from-imports (from . import x) only adds its own node; its imports are recorded nowhere. *)
Theorem module_less_from_import_dropped (ast_parse : string -> outcome (list pystmt))
    (fs : FileSystem) (inputs : ExecuteInputs) (st : ScanState) (f code : string)
    (tree : list pystmt)
    (Hread : fs_read fs f = Some code)
    (Hpy : file_lang_of inputs f = Some "python")
    (Hparse : ast_parse code = Done tree)
    (Htree : Forall (fun s => exists names level, s = ImportFrom None names level) tree) :
  process_file ast_parse fs inputs st f
  = Done (mkScan (st_internal_deps st) (st_external_deps_map st) (st_edges st)
                 (set_add (relative_path_of fs inputs f) (st_all_nodes st))
                 (st_external_nodes st)).
Proof.
  unfold process_file, parse_file_imports. rewrite Hread, Hpy. simpl.
  unfold parse_python_imports. rewrite Hparse. cbn [obind].
  generalize (mkScan (st_internal_deps st) (st_external_deps_map st) (st_edges st)
                 (set_add (relative_path_of fs inputs f) (st_all_nodes st))
                 (st_external_nodes st)) as s0.
  intros s0. f_equal. unfold visit_module. clear Hparse.
  induction Htree as [|s tree [names [level ->]] _ IH]; [reflexivity|].
  simpl. rewrite process_import_empty_module by reflexivity. exact IH.
Qed.

(** Extra X14 ([PythonImportVisitor], [is_external_dependency]): the relative level of a Python from-import is dropped, so a from-import of a non-standard-library module m adds no internal dependency or edge and, with include_external, counts the root package of m as external. *)
Theorem relative_from_import_not_internal (ast_parse : string -> outcome (list pystmt))
    (fs : FileSystem) (inputs : ExecuteInputs) (st : ScanState) (f code m : string)
    (names : list (string * option string)) (level : nat)
    (Hread : fs_read fs f = Some code)
    (Hpy : file_lang_of inputs f = Some "python")
    (Hparse : ast_parse code = Done [ImportFrom (Some m) names level])
    (Hm : String.eqb m EmptyString = false)
    (Hdot : startswith m "." = false)
    (Hstd : mem (split_first "." m) PYTHON_STDLIB = false) :
  exists st', process_file ast_parse fs inputs st f = Done st'
              /\ st_internal_deps st' = st_internal_deps st
              /\ st_edges st' = st_edges st
              /\ (include_external inputs = true ->
                  st_external_deps_map st'
                  = ext_map_add (split_first "." (split_first "/" m))
                                (relative_path_of fs inputs f) (st_external_deps_map st)).
Proof.
  assert (Hext : is_external_dependency m (Some "python") f = true).
  { unfold is_external_dependency. rewrite Hdot, Hstd. reflexivity. }
  unfold process_file, parse_file_imports. rewrite Hread, Hpy.
  cbn [lang_is String.eqb Ascii.eqb Bool.eqb]. unfold parse_python_imports. rewrite Hparse.
  cbn [obind visit_module flat_map visit_stmt app fold_left].
  eexists. split; [reflexivity|]. unfold process_import. cbn [imp_module].
  rewrite Hm, Hext.
  destruct (include_external inputs); simpl; auto. split; [reflexivity|]. split; [reflexivity|].
  discriminate.
Qed.

(** Extra X15 ([is_external_dependency]): for JavaScript and TypeScript a target is external exactly when it starts with neither dot nor slash; the builtin module list never changes the answer. *)
Theorem js_classification (module source_file : string) (language : option string)
    (Hjs : lang_is language "javascript" || lang_is language "typescript" = true) :
  is_external_dependency module language source_file
  = negb (startswith module "." || startswith module "/").
Proof.
  unfold is_external_dependency.
  destruct (startswith module ".") eqn:Hd; [reflexivity|].
  destruct language as [l|]; [|discriminate]. simpl in *.
  destruct (String.eqb l "python") eqn:Hp.
  { apply String.eqb_eq in Hp. subst. discriminate. }
  rewrite Hjs. simpl.
  destruct (startswith module "/"); [reflexivity|].
  match goal with |- context [if ?c then true else true] => destruct c end; reflexivity.
Qed.

Lemma finditer_aux_sound {G} (m : Matcher G) (fuel : nat) (bol : bool) (s : chars) (g : G) :
  In g (finditer_aux m fuel bol s) -> exists b s' r, m b s' = Some (g, r).
Proof.
  revert bol s. induction fuel as [|f IH]; intros bol s H; simpl in H; [destruct H|].
  destruct (m bol s) as [[g' r]|] eqn:Hm.
  - destruct (length r <? length s).
    + destruct H as [<-|H]; [eauto | exact (IH _ _ H)].
    + destruct H as [<-|H]; [eauto|]. destruct s as [|c s']; [destruct H | exact (IH _ _ H)].
  - destruct s as [|c s']; [destruct H | exact (IH _ _ H)].
Qed.

Lemma finditer_sound {G} (m : Matcher G) (code : string) (g : G) :
  In g (finditer m code) -> exists b s' r, m b s' = Some (g, r).
Proof. apply finditer_aux_sound. Qed.

Lemma span_spec (p : ascii -> bool) (s a b : chars) :
  span p s = (a, b) -> forallb p a = true /\ s = a ++ b.
Proof.
  revert a b. induction s as [|c s IH]; intros a b H; simpl in H.
  - injection H as <- <-. auto.
  - destruct (p c) eqn:Hp.
    + destruct (span p s) as [a' b'] eqn:Hs. injection H as <- <-.
      destruct (IH a' b' eq_refl) as [H1 H2]. simpl. rewrite Hp, H1, H2. auto.
    + injection H as <- <-. auto.
Qed.

Lemma plus_spec (p : ascii -> bool) (s g r : chars) :
  plus p s = Some (g, r) -> g <> [] /\ forallb p g = true.
Proof.
  unfold plus. destruct (span p s) as [a b] eqn:Hs.
  destruct a as [|c a]; [discriminate|]. intros H. injection H as <- <-.
  split; [discriminate | exact (proj1 (span_spec _ _ _ _ Hs))].
Qed.

Lemma quoted_spec (s g r : chars) :
  quoted s = Some (g, r) -> g <> [] /\ forallb not_quote g = true.
Proof.
  unfold quoted. destruct s as [|q s]; [discriminate|].
  destruct (is_quote q); [|discriminate].
  destruct (plus not_quote s) as [[g' r']|] eqn:Hp; [|discriminate].
  destruct r' as [|q' r']; [discriminate|]. destruct (is_quote q'); [|discriminate].
  intros H. injection H as <- <-. exact (plus_spec _ _ _ _ Hp).
Qed.

Lemma dquoted_spec (s g r : chars) :
  dquoted s = Some (g, r) -> g <> [] /\ forallb not_dquote g = true.
Proof.
  unfold dquoted. destruct (lit _ s) as [r1|]; [|discriminate].
  destruct (plus not_dquote r1) as [[g' r']|] eqn:Hp; [|discriminate].
  destruct (lit _ r') as [r2|]; [|discriminate].
  intros H. injection H as <- <-. exact (plus_spec _ _ _ _ Hp).
Qed.

Lemma S_nonempty (g : chars) : g <> [] -> S_ g <> EmptyString.
Proof. destruct g; [congruence | discriminate]. Qed.

Lemma L_S (g : chars) : L (S_ g) = g.
Proof. apply list_ascii_of_string_of_list_ascii. Qed.

Lemma contains_char_forallb (p : ascii -> bool) (c : ascii) (g : chars) :
  p c = false -> forallb p g = true -> contains_char c (S_ g) = false.
Proof.
  intros Hc Hg. unfold contains_char. rewrite L_S.
  apply not_true_is_false. intros H. apply existsb_exists in H. destruct H as [x [Hx Heq]].
  apply Ascii.eqb_eq in Heq. subst x. rewrite forallb_forall in Hg. rewrite (Hg c Hx) in Hc.
  discriminate.
Qed.

(** Destructs the option binds of a matcher's result, keeping the equations. *)
Ltac open_binds H :=
  repeat match type of H with
  | context [match ?x with _ => _ end] =>
      let E := fresh "E" in destruct x eqn:E; try discriminate H
  end.

Ltac use_group_specs :=
  repeat match goal with
  | E : plus _ _ = Some (_, _) |- _ => apply plus_spec in E
  | E : quoted _ = Some (_, _) |- _ => apply quoted_spec in E
  | E : dquoted _ = Some (_, _) |- _ => apply dquoted_spec in E
  end.

Ltac matcher_spec :=
  let H := fresh "H" in
  intros H; open_binds H; injection H as <- <- <-; use_group_specs; tauto.

Lemma js_default_spec (b : bool) (s g1 g2 r : chars) :
  js_default_import b s = Some ((g1, g2), r) ->
  (g1 <> [] /\ forallb is_word g1 = true) /\ (g2 <> [] /\ forallb not_quote g2 = true).
Proof. unfold js_default_import. matcher_spec. Qed.

Lemma js_named_spec (b : bool) (s g1 g2 r : chars) :
  js_named_import b s = Some ((g1, g2), r) -> g2 <> [] /\ forallb not_quote g2 = true.
Proof. unfold js_named_import. matcher_spec. Qed.

Lemma js_namespace_spec (b : bool) (s g1 g2 r : chars) :
  js_namespace_import b s = Some ((g1, g2), r) ->
  (g1 <> [] /\ forallb is_word g1 = true) /\ (g2 <> [] /\ forallb not_quote g2 = true).
Proof. unfold js_namespace_import. matcher_spec. Qed.

Lemma js_require_spec (b : bool) (s g1 g2 r : chars) :
  js_require_pattern b s = Some ((g1, g2), r) ->
  (g1 <> [] /\ forallb is_word g1 = true) /\ (g2 <> [] /\ forallb not_quote g2 = true).
Proof. unfold js_require_pattern. matcher_spec. Qed.

Lemma js_dynamic_spec (b : bool) (s g1 r : chars) :
  js_dynamic_import b s = Some (g1, r) -> g1 <> [] /\ forallb not_quote g1 = true.
Proof.
  unfold js_dynamic_import. intros H; open_binds H; injection H as <- <-; use_group_specs; tauto.
Qed.

Lemma forallb_removelast {A} (p : A -> bool) (l : list A) :
  forallb p l = true -> forallb p (removelast l) = true.
Proof.
  induction l as [|a l IH]; simpl; [auto|]. intros H. apply andb_true_iff in H.
  destruct H as [H1 H2]. destruct l as [|b l]; [reflexivity|]. simpl. rewrite H1. simpl.
  apply IH. exact H2.
Qed.

Lemma java_tail_spec (s g r : chars) :
  java_tail s = Some (g, r) -> g <> [] /\ forallb java_name_char g = true.
Proof.
  unfold java_tail. intros H. open_binds H.
  all: try (injection H as <- <-; use_group_specs; unfold java_name_char; tauto).
  injection H as <- <-. use_group_specs. unfold java_name_char.
  match goal with E : (2 <=? length ?g) && _ = true |- _ =>
    apply andb_true_iff in E; destruct E as [E _]; apply Nat.leb_le in E;
    destruct g as [|x [|y g]]; simpl in E; [lia | lia |] end.
  split; [discriminate|]. apply forallb_removelast. tauto.
Qed.

Lemma java_import_spec (b : bool) (s g0 g r : chars) :
  java_import_pattern b s = Some ((g0, g), r) -> g <> [] /\ forallb java_name_char g = true.
Proof.
  unfold java_import_pattern. intros H. open_binds H. injection H as <- <- <-.
  repeat match goal with
  | X : (match ?x with _ => _ end) = Some _ |- _ =>
      let E := fresh "E" in destruct x eqn:E; try discriminate X
  | X : Some _ = Some _ |- _ => injection X; clear X; intros; subst
  end.
  all: match goal with X : java_tail _ = Some (_, _) |- _ => exact (java_tail_spec _ _ _ X) end.
Qed.

Lemma go_single_spec (b : bool) (s g r : chars) :
  go_single_import b s = Some (g, r) -> g <> [] /\ forallb not_dquote g = true.
Proof.
  unfold go_single_import. intros H. open_binds H. exact (dquoted_spec _ _ _ H).
Qed.

Lemma go_line_spec (b : bool) (s : chars) (alias : option chars) (p r : chars) :
  go_line_pattern b s = Some ((alias, p), r) ->
  (p <> [] /\ forallb not_dquote p = true)
  /\ match alias with Some a => a <> [] /\ forallb is_word a = true | None => True end.
Proof.
  unfold go_line_pattern. intros H.
  repeat match goal with
  | X : (match ?x with _ => _ end) = Some _ |- _ =>
      let E := fresh "E" in destruct x eqn:E; try discriminate X
  | X : Some _ = Some _ |- _ => injection X; clear X; intros; subst
  end.
  all: use_group_specs; tauto.
Qed.

Lemma py_from_spec (b : bool) (s g1 g2 r : chars) :
  py_from_pattern b s = Some ((g1, g2), r) -> g1 <> [] /\ forallb java_name_char g1 = true.
Proof. unfold py_from_pattern, java_name_char. matcher_spec. Qed.

(** Extra X16 ([parse_js_imports]): every extracted JavaScript import has a non-empty module without quote characters; default, namespace and require imports carry one non-empty word symbol, and dynamic imports carry no symbol. *)
Theorem parse_js_imports_shape (code : string) (imp : ImportRecord) :
  In imp (parse_js_imports code) ->
  imp_module imp <> EmptyString
  /\ contains_char "'" (imp_module imp) = false
  /\ contains_char "034" (imp_module imp) = false
  /\ ((In (imp_type imp) ["default"; "namespace"; "require"]
       /\ exists name, imp_symbols imp = [name] /\ name <> EmptyString
                       /\ forallb is_word (L name) = true)
      \/ imp_type imp = "named"
      \/ (imp_type imp = "dynamic" /\ imp_symbols imp = [])).
Proof.
  assert (Hq : forall g, g <> [] -> forallb not_quote g = true ->
            S_ g <> EmptyString /\ contains_char "'" (S_ g) = false
            /\ contains_char "034" (S_ g) = false).
  { intros g Hg Hf. split; [apply S_nonempty; exact Hg|].
    split; apply (contains_char_forallb not_quote); auto. }
  assert (Hw : forall g, g <> [] -> forallb is_word g = true ->
            S_ g <> EmptyString /\ forallb is_word (L (S_ g)) = true).
  { intros g Hg Hf. rewrite L_S. split; [apply S_nonempty|]; assumption. }
  unfold parse_js_imports. rewrite !in_app_iff, !in_map_iff.
  intros [[[g1 g2] [<- Hin]]|[[[g1 g2] [<- Hin]]|[[[g1 g2] [<- Hin]]|[[[g1 g2] [<- Hin]]|[g1 [<- Hin]]]]]];
    apply finditer_sound in Hin; destruct Hin as [b [s' [r Hm]]]; cbn [imp_module imp_type imp_symbols].
  - apply js_default_spec in Hm. destruct Hm as [[H1 H2] [H3 H4]].
    destruct (Hq g2 H3 H4) as [? [? ?]]. repeat split; auto. left. split; [simpl; auto|].
    exists (S_ g1). destruct (Hw g1 H1 H2). auto.
  - apply js_named_spec in Hm. destruct Hm as [H3 H4].
    destruct (Hq g2 H3 H4) as [? [? ?]]. repeat split; auto.
  - apply js_namespace_spec in Hm. destruct Hm as [[H1 H2] [H3 H4]].
    destruct (Hq g2 H3 H4) as [? [? ?]]. repeat split; auto. left. split; [simpl; auto|].
    exists (S_ g1). destruct (Hw g1 H1 H2). auto.
  - apply js_require_spec in Hm. destruct Hm as [[H1 H2] [H3 H4]].
    destruct (Hq g2 H3 H4) as [? [? ?]]. repeat split; auto. left. split; [simpl; auto|].
    exists (S_ g1). destruct (Hw g1 H1 H2). auto.
  - apply js_dynamic_spec in Hm. destruct Hm as [H3 H4].
    destruct (Hq g1 H3 H4) as [? [? ?]]. repeat split; auto.
Qed.

(** Extra X17 ([parse_go_imports]): every extracted Go import has a non-empty module without double quote; it is direct with no symbol or aliased with one non-empty word alias. *)
Theorem parse_go_imports_shape (code : string) (imp : ImportRecord) :
  In imp (parse_go_imports code) ->
  imp_module imp <> EmptyString
  /\ contains_char "034" (imp_module imp) = false
  /\ ((imp_type imp = "direct" /\ imp_symbols imp = [])
      \/ (imp_type imp = "aliased"
          /\ exists alias, imp_symbols imp = [alias] /\ alias <> EmptyString
                           /\ forallb is_word (L alias) = true)).
Proof.
  assert (Hq : forall g, g <> [] -> forallb not_dquote g = true ->
            S_ g <> EmptyString /\ contains_char "034" (S_ g) = false).
  { intros g Hg Hf. split; [apply S_nonempty; exact Hg|].
    apply (contains_char_forallb not_dquote); auto. }
  unfold parse_go_imports. rewrite in_app_iff, in_map_iff, in_flat_map.
  intros [[g [<- Hin]]|[block [_ Hin]]].
  - apply finditer_sound in Hin. destruct Hin as [b [s' [r Hm]]].
    apply go_single_spec in Hm. destruct Hm as [H1 H2]. destruct (Hq g H1 H2).
    cbn [imp_module imp_type imp_symbols]. auto.
  - apply in_map_iff in Hin. destruct Hin as [[alias p] [<- Hin]].
    apply finditer_sound in Hin. destruct Hin as [b [s' [r Hm]]].
    apply go_line_spec in Hm. destruct Hm as [[H1 H2] Ha]. destruct (Hq p H1 H2).
    destruct alias as [a|]; cbn [imp_module imp_type imp_symbols].
    + destruct Ha as [Ha1 Ha2]. pose proof (S_nonempty a Ha1) as Hne.
      destruct (String.eqb (S_ a) EmptyString) eqn:He.
      { apply String.eqb_eq in He. contradiction. }
      repeat split; auto. right. split; [reflexivity|]. exists (S_ a).
      rewrite L_S. auto.
    + simpl. auto.
Qed.

Lemma split_on_spec (sep : ascii) (s : string) :
  split_on sep s <> [] /\ forall x, In x (split_on sep s) -> contains_char sep x = false.
Proof.
  induction s as [|c s [IHne IH]]; simpl.
  - split; [discriminate|]. intros x [<-|[]]. reflexivity.
  - destruct (Ascii.eqb c sep) eqn:Hc.
    + split; [discriminate|]. intros x [<-|Hx]; [reflexivity | exact (IH x Hx)].
    + destruct (split_on sep s) as [|w ws] eqn:Hs; [contradiction|].
      split; [discriminate|]. intros x [<-|Hx]; [|exact (IH x (or_intror Hx))].
      unfold contains_char in *. simpl. rewrite Ascii.eqb_sym, Hc. simpl.
      exact (IH w (or_introl eq_refl)).
Qed.

Lemma In_last {A} (l : list A) (d : A) : l <> [] -> In (last l d) l.
Proof.
  induction l as [|a l IH]; intros H; [congruence|].
  destruct l as [|b l]; [left; reflexivity|]. right. apply IH. discriminate.
Qed.

(** Extra X18 ([parse_java_imports]): every extracted Java import has a non-empty module of word characters and dots, type static or direct, and one symbol without dot. *)
Theorem parse_java_imports_shape (code : string) (imp : ImportRecord) :
  In imp (parse_java_imports code) ->
  imp_module imp <> EmptyString
  /\ forallb (fun c => is_word c || is_char "." c) (L (imp_module imp)) = true
  /\ (imp_type imp = "static" \/ imp_type imp = "direct")
  /\ exists symbol, imp_symbols imp = [symbol] /\ contains_char "." symbol = false.
Proof.
  unfold parse_java_imports. rewrite in_map_iff. intros [[g0 g] [<- Hin]].
  apply finditer_sound in Hin. destruct Hin as [b [s' [r Hm]]].
  apply java_import_spec in Hm. destruct Hm as [H1 H2]. cbn [imp_module imp_type imp_symbols].
  split; [apply S_nonempty; exact H1|]. split; [rewrite L_S; exact H2|].
  split; [destruct (contains_sub _ _); auto|].
  destruct (split_on_spec "." (S_ g)) as [Hne Hall].
  eexists. split; [reflexivity|]. apply Hall. apply In_last. exact Hne.
Qed.

(** Extra X19 ([parse_python_imports_regex]): a direct import record has a dot-free module equal to the part before the first dot of its one non-empty symbol; a from record has a non-empty module of word characters and dots. *)
Theorem parse_python_imports_regex_shape (code : string) (imp : ImportRecord) :
  In imp (parse_python_imports_regex code) ->
  (imp_type imp = "direct" /\ contains_char "." (imp_module imp) = false
   /\ exists module, imp_symbols imp = [module] /\ module <> EmptyString
                     /\ imp_module imp = split_first "." module)
  \/ (imp_type imp = "from" /\ imp_module imp <> EmptyString
      /\ forallb (fun c => is_word c || is_char "." c) (L (imp_module imp)) = true).
Proof.
  unfold parse_python_imports_regex. rewrite in_app_iff, in_flat_map, in_map_iff.
  intros [[g [_ Hin]]|[[g1 g2] [<- Hin]]].
  - apply in_flat_map in Hin. destruct Hin as [module [_ Hin]].
    destruct (String.eqb module EmptyString) eqn:He; [destruct Hin|].
    destruct Hin as [<-|[]]. left. cbn [imp_module imp_type imp_symbols].
    split; [reflexivity|]. split; [apply contains_char_split_first_sep|].
    exists module. split; [reflexivity|]. split; [|reflexivity].
    intros Heq. rewrite Heq in He. discriminate.
  - apply finditer_sound in Hin. destruct Hin as [b [s' [r Hm]]].
    apply py_from_spec in Hm. destruct Hm as [H1 H2]. right. cbn [imp_module imp_type imp_symbols].
    split; [reflexivity|]. split; [apply S_nonempty; exact H1|]. rewrite L_S. exact H2.
Qed.

Lemma entry_points_off_cycles_witness :
  (forall l, Permutation (insertion_order l) l)
  /\ map_dependencies insertion_order default_room no_ast js_loop_fs js_loop_request = Done js_loop_report
  /\ entry_points js_loop_report = [".m.js"]
  /\ circular_dependencies js_loop_report = [[".a.js"; ".b.js"; ".a.js"]]
  /\ forall n c, In n (entry_points js_loop_report) ->
       In c (circular_dependencies js_loop_report) -> ~ In n c.
Proof.
  assert (Hperm : forall l, Permutation (insertion_order l) l) by exact (@Permutation_refl string).
  assert (H : map_dependencies insertion_order default_room no_ast js_loop_fs js_loop_request
              = Done js_loop_report) by (vm_compute; reflexivity).
  split; [exact Hperm|]. split; [exact H|].
  split; [vm_compute; reflexivity|]. split; [vm_compute; reflexivity|].
  exact (entry_points_off_cycles insertion_order default_room Hperm _ _ _ _ H).
Defined.

Lemma highly_depended_ranked_witness :
  (forall l, Permutation (insertion_order l) l)
  /\ scan_files no_ast js_loop_fs js_loop_request js_loop_files empty_scan = Done js_loop_scan
  /\ build_report insertion_order default_room (length js_loop_files) js_loop_scan = Done js_loop_report
  /\ highly_depended js_loop_report = [mkHighly ".a.js" 2; mkHighly ".b.js" 1]
  /\ length (highly_depended js_loop_report) <= 10
  /\ Sorted (fun a b => hd_dependents_count b <= hd_dependents_count a)
            (highly_depended js_loop_report)
  /\ NoDup (map hd_path (highly_depended js_loop_report))
  /\ (forall h, In h (highly_depended js_loop_report) ->
        exists srcs, dependents js_loop_scan (hd_path h) srcs /\ srcs <> []
                     /\ hd_dependents_count h = length srcs)
  /\ (forall t srcs, dependents js_loop_scan t srcs -> srcs <> [] ->
        ~ In t (map hd_path (highly_depended js_loop_report)) ->
        length (highly_depended js_loop_report) = 10
        /\ forall h, In h (highly_depended js_loop_report) ->
             length srcs <= hd_dependents_count h).
Proof.
  assert (Hperm : forall l, Permutation (insertion_order l) l) by exact (@Permutation_refl string).
  assert (Hs : scan_files no_ast js_loop_fs js_loop_request js_loop_files empty_scan
               = Done js_loop_scan) by (vm_compute; reflexivity).
  assert (Hb : build_report insertion_order default_room (length js_loop_files) js_loop_scan
               = Done js_loop_report) by (vm_compute; reflexivity).
  split; [exact Hperm|]. split; [exact Hs|]. split; [exact Hb|].
  split; [vm_compute; reflexivity|].
  exact (highly_depended_ranked insertion_order default_room Hperm _ _ _ _ _ _ _ Hs Hb).
Defined.

Lemma external_dependencies_shape_witness :
  (forall l, Permutation (insertion_order l) l)
  /\ scan_files no_ast js_loop_fs js_loop_request js_loop_files empty_scan = Done js_loop_scan
  /\ build_report insertion_order default_room (length js_loop_files) js_loop_scan = Done js_loop_report
  /\ external_dependencies js_loop_report = [mkExternal "react" [".m.js"; ".b.js"] 2]
  /\ Sorted (fun a b => ext_import_count b <= ext_import_count a)
            (external_dependencies js_loop_report)
  /\ NoDup (map ext_name (external_dependencies js_loop_report))
  /\ forall e, In e (external_dependencies js_loop_report) ->
       contains_char "." (ext_name e) = false /\ contains_char "/" (ext_name e) = false
       /\ 1 <= ext_import_count e
       /\ NoDup (ext_used_in e) /\ length (ext_used_in e) <= 10
       /\ length (ext_used_in e) <= ext_import_count e
       /\ In (mkNode (ext_name e) "external" (ext_name e))
             (graph_nodes_of insertion_order js_loop_scan)
       /\ (forall u, In u (ext_used_in e) ->
             In (mkNode u "internal" u) (graph_nodes_of insertion_order js_loop_scan)).
Proof.
  assert (Hperm : forall l, Permutation (insertion_order l) l) by exact (@Permutation_refl string).
  assert (Hs : scan_files no_ast js_loop_fs js_loop_request js_loop_files empty_scan
               = Done js_loop_scan) by (vm_compute; reflexivity).
  assert (Hb : build_report insertion_order default_room (length js_loop_files) js_loop_scan
               = Done js_loop_report) by (vm_compute; reflexivity).
  split; [exact Hperm|]. split; [exact Hs|]. split; [exact Hb|].
  split; [vm_compute; reflexivity|].
  exact (external_dependencies_shape insertion_order default_room Hperm _ _ _ _ _ _ _ Hs Hb).
Defined.

Lemma entry_points_not_highly_depended_witness :
  (forall l, Permutation (insertion_order l) l)
  /\ map_dependencies insertion_order default_room no_ast js_loop_fs js_loop_request = Done js_loop_report
  /\ forall n h, In n (entry_points js_loop_report) ->
       In h (highly_depended js_loop_report) -> hd_path h <> n.
Proof.
  assert (Hperm : forall l, Permutation (insertion_order l) l) by exact (@Permutation_refl string).
  assert (H : map_dependencies insertion_order default_room no_ast js_loop_fs js_loop_request
              = Done js_loop_report) by (vm_compute; reflexivity).
  split; [exact Hperm|]. split; [exact H|].
  exact (entry_points_not_highly_depended insertion_order default_room Hperm _ _ _ _ H).
Defined.

Lemma report_no_duplicates_witness :
  (forall l, Permutation (insertion_order l) l)
  /\ map_dependencies insertion_order default_room no_ast js_loop_fs js_loop_request = Done js_loop_report
  /\ NoDup (nodes (dependency_graph js_loop_report))
  /\ NoDup (edges (dependency_graph js_loop_report))
  /\ NoDup (entry_points js_loop_report).
Proof.
  assert (Hperm : forall l, Permutation (insertion_order l) l) by exact (@Permutation_refl string).
  assert (H : map_dependencies insertion_order default_room no_ast js_loop_fs js_loop_request
              = Done js_loop_report) by (vm_compute; reflexivity).
  split; [exact Hperm|]. split; [exact H|].
  exact (report_no_duplicates insertion_order default_room Hperm _ _ _ _ H).
Defined.

Lemma report_independent_of_set_order_witness :
  map_dependencies insertion_order default_room no_ast js_loop_fs js_loop_request = Done js_loop_report
  /\ map_dependencies (@rev string) default_room no_ast js_loop_fs js_loop_request
     = Done (report_of (map_dependencies (@rev string) default_room no_ast js_loop_fs js_loop_request))
  /\ internal_dependencies js_loop_report
     = internal_dependencies (report_of (map_dependencies (@rev string) default_room no_ast js_loop_fs js_loop_request))
  /\ total_dependencies js_loop_report
     = total_dependencies (report_of (map_dependencies (@rev string) default_room no_ast js_loop_fs js_loop_request))
  /\ map (fun e => (ext_name e, ext_import_count e)) (external_dependencies js_loop_report)
     = map (fun e => (ext_name e, ext_import_count e))
           (external_dependencies
              (report_of (map_dependencies (@rev string) default_room no_ast js_loop_fs js_loop_request))).
Proof.
  assert (H1 : map_dependencies insertion_order default_room no_ast js_loop_fs js_loop_request
               = Done js_loop_report) by (vm_compute; reflexivity).
  assert (H2 : map_dependencies (@rev string) default_room no_ast js_loop_fs js_loop_request
     = Done (report_of (map_dependencies (@rev string) default_room no_ast js_loop_fs js_loop_request)))
    by (vm_compute; reflexivity).
  split; [exact H1|]. split; [exact H2|].
  exact (report_independent_of_set_order insertion_order (@rev string) default_room _ _ _ _ _ H1 H2).
Defined.

Lemma execute_internal_error_witness :
  fs_exists py_fs (source_path (inputs py_request)) = Done true
  /\ In "proj/m.py" (get_source_files py_fs (source_path (inputs py_request))
                       (language (inputs py_request)))
  /\ fs_read py_fs "proj/m.py" = Some ("import os" ++ nl)%string
  /\ file_lang_of (inputs py_request) "proj/m.py" = Some "python"
  /\ recursion_error_ast ("import os" ++ nl)%string = Raise RecursionError
  /\ RecursionError <> SyntaxError
  /\ exists e', execute insertion_order default_room recursion_error_ast py_fs exn_name 7 py_request
                = HTTPException 500 "INTERNAL_ERROR" (exn_name e').
Proof.
  assert (Hex : fs_exists py_fs (source_path (inputs py_request)) = Done true)
    by (vm_compute; reflexivity).
  assert (Hf : In "proj/m.py" (get_source_files py_fs (source_path (inputs py_request))
                                 (language (inputs py_request))))
    by (vm_compute; left; reflexivity).
  assert (Hread : fs_read py_fs "proj/m.py" = Some ("import os" ++ nl)%string)
    by (vm_compute; reflexivity).
  assert (Hpy : file_lang_of (inputs py_request) "proj/m.py" = Some "python")
    by (vm_compute; reflexivity).
  assert (Hparse : recursion_error_ast ("import os" ++ nl)%string = Raise RecursionError)
    by reflexivity.
  assert (He : RecursionError <> SyntaxError) by discriminate.
  split; [exact Hex|]. split; [exact Hf|]. split; [exact Hread|]. split; [exact Hpy|].
  split; [exact Hparse|]. split; [exact He|].
  exact (execute_internal_error nat insertion_order default_room recursion_error_ast py_fs exn_name
           7 py_request "proj/m.py" _ RecursionError Hex Hf Hread Hpy Hparse He).
Defined.

Lemma module_less_from_import_dropped_witness :
  fs_read py_fs "proj/m.py" = Some ("import os" ++ nl)%string
  /\ file_lang_of (scan_request "proj" true) "proj/m.py" = Some "python"
  /\ bare_from_ast ("import os" ++ nl)%string = Done [ImportFrom None [("helper", None)] 1]
  /\ process_file bare_from_ast py_fs (scan_request "proj" true) empty_scan "proj/m.py"
     = Done (mkScan (st_internal_deps empty_scan) (st_external_deps_map empty_scan)
                    (st_edges empty_scan)
                    (set_add (relative_path_of py_fs (scan_request "proj" true) "proj/m.py")
                             (st_all_nodes empty_scan))
                    (st_external_nodes empty_scan)).
Proof.
  assert (Hread : fs_read py_fs "proj/m.py" = Some ("import os" ++ nl)%string)
    by (vm_compute; reflexivity).
  assert (Hpy : file_lang_of (scan_request "proj" true) "proj/m.py" = Some "python")
    by (vm_compute; reflexivity).
  assert (Hparse : bare_from_ast ("import os" ++ nl)%string
                   = Done [ImportFrom None [("helper", None)] 1]) by reflexivity.
  split; [exact Hread|]. split; [exact Hpy|]. split; [exact Hparse|].
  apply (module_less_from_import_dropped bare_from_ast py_fs (scan_request "proj" true)
           empty_scan "proj/m.py" _ _ Hread Hpy Hparse).
  repeat constructor. exists [("helper", None)], 1. reflexivity.
Defined.

Lemma relative_from_import_not_internal_witness :
  fs_read py_fs "proj/m.py" = Some ("import os" ++ nl)%string
  /\ file_lang_of (scan_request "proj" true) "proj/m.py" = Some "python"
  /\ relative_from_ast ("import os" ++ nl)%string
     = Done [ImportFrom (Some "utils") [("helper", None)] 1]
  /\ String.eqb "utils" EmptyString = false
  /\ startswith "utils" "." = false
  /\ mem (split_first "." "utils") PYTHON_STDLIB = false
  /\ exists st', process_file relative_from_ast py_fs (scan_request "proj" true) empty_scan "proj/m.py"
                 = Done st'
              /\ st_internal_deps st' = st_internal_deps empty_scan
              /\ st_edges st' = st_edges empty_scan
              /\ (include_external (scan_request "proj" true) = true ->
                  st_external_deps_map st'
                  = ext_map_add (split_first "." (split_first "/" "utils"))
                                (relative_path_of py_fs (scan_request "proj" true) "proj/m.py")
                                (st_external_deps_map empty_scan)).
Proof.
  assert (Hread : fs_read py_fs "proj/m.py" = Some ("import os" ++ nl)%string)
    by (vm_compute; reflexivity).
  assert (Hpy : file_lang_of (scan_request "proj" true) "proj/m.py" = Some "python")
    by (vm_compute; reflexivity).
  assert (Hparse : relative_from_ast ("import os" ++ nl)%string
                   = Done [ImportFrom (Some "utils") [("helper", None)] 1]) by reflexivity.
  assert (Hm : String.eqb "utils" EmptyString = false) by reflexivity.
  assert (Hdot : startswith "utils" "." = false) by (vm_compute; reflexivity).
  assert (Hstd : mem (split_first "." "utils") PYTHON_STDLIB = false) by (vm_compute; reflexivity).
  split; [exact Hread|]. split; [exact Hpy|]. split; [exact Hparse|]. split; [exact Hm|].
  split; [exact Hdot|]. split; [exact Hstd|].
  exact (relative_from_import_not_internal relative_from_ast py_fs (scan_request "proj" true)
           empty_scan "proj/m.py" _ "utils" _ _ Hread Hpy Hparse Hm Hdot Hstd).
Defined.

Lemma js_classification_witness :
  lang_is (Some "typescript") "javascript" || lang_is (Some "typescript") "typescript" = true
  /\ is_external_dependency "react" (Some "typescript") "app.ts"
     = negb (startswith "react" "." || startswith "react" "/").
Proof.
  assert (Hjs : lang_is (Some "typescript") "javascript" || lang_is (Some "typescript") "typescript"
                = true) by (vm_compute; reflexivity).
  split; [exact Hjs|]. exact (js_classification "react" "app.ts" (Some "typescript") Hjs).
Defined.

Lemma parse_js_imports_shape_witness :
  In (mkImport "fs" "require" ["fs"]) (parse_js_imports js_sample)
  /\ imp_module (mkImport "fs" "require" ["fs"]) <> EmptyString
  /\ contains_char "'" (imp_module (mkImport "fs" "require" ["fs"])) = false
  /\ contains_char "034" (imp_module (mkImport "fs" "require" ["fs"])) = false
  /\ ((In (imp_type (mkImport "fs" "require" ["fs"])) ["default"; "namespace"; "require"]
       /\ exists name, imp_symbols (mkImport "fs" "require" ["fs"]) = [name]
                       /\ name <> EmptyString /\ forallb is_word (L name) = true)
      \/ imp_type (mkImport "fs" "require" ["fs"]) = "named"
      \/ (imp_type (mkImport "fs" "require" ["fs"]) = "dynamic"
          /\ imp_symbols (mkImport "fs" "require" ["fs"]) = [])).
Proof.
  assert (H : In (mkImport "fs" "require" ["fs"]) (parse_js_imports js_sample))
    by (vm_compute; right; left; reflexivity).
  split; [exact H|]. exact (parse_js_imports_shape js_sample _ H).
Defined.

Lemma parse_go_imports_shape_witness :
  In (mkImport "fmt" "aliased" ["f"]) (parse_go_imports go_sample)
  /\ imp_module (mkImport "fmt" "aliased" ["f"]) <> EmptyString
  /\ contains_char "034" (imp_module (mkImport "fmt" "aliased" ["f"])) = false
  /\ ((imp_type (mkImport "fmt" "aliased" ["f"]) = "direct"
       /\ imp_symbols (mkImport "fmt" "aliased" ["f"]) = [])
      \/ (imp_type (mkImport "fmt" "aliased" ["f"]) = "aliased"
          /\ exists alias, imp_symbols (mkImport "fmt" "aliased" ["f"]) = [alias]
                           /\ alias <> EmptyString /\ forallb is_word (L alias) = true)).
Proof.
  assert (H : In (mkImport "fmt" "aliased" ["f"]) (parse_go_imports go_sample))
    by (vm_compute; left; reflexivity).
  split; [exact H|]. exact (parse_go_imports_shape go_sample _ H).
Defined.

Lemma parse_java_imports_shape_witness :
  In (mkImport "java.util.List" "direct" ["List"]) (parse_java_imports java_sample)
  /\ imp_module (mkImport "java.util.List" "direct" ["List"]) <> EmptyString
  /\ forallb (fun c => is_word c || is_char "." c)
       (L (imp_module (mkImport "java.util.List" "direct" ["List"]))) = true
  /\ (imp_type (mkImport "java.util.List" "direct" ["List"]) = "static"
      \/ imp_type (mkImport "java.util.List" "direct" ["List"]) = "direct")
  /\ exists symbol, imp_symbols (mkImport "java.util.List" "direct" ["List"]) = [symbol]
                    /\ contains_char "." symbol = false.
Proof.
  assert (H : In (mkImport "java.util.List" "direct" ["List"]) (parse_java_imports java_sample))
    by (vm_compute; left; reflexivity).
  split; [exact H|]. exact (parse_java_imports_shape java_sample _ H).
Defined.

Lemma parse_python_imports_regex_shape_witness :
  In (mkImport "os" "direct" ["os.path"]) (parse_python_imports_regex py_sample)
  /\ ((imp_type (mkImport "os" "direct" ["os.path"]) = "direct"
       /\ contains_char "." (imp_module (mkImport "os" "direct" ["os.path"])) = false
       /\ exists module, imp_symbols (mkImport "os" "direct" ["os.path"]) = [module]
                         /\ module <> EmptyString
                         /\ imp_module (mkImport "os" "direct" ["os.path"]) = split_first "." module)
      \/ (imp_type (mkImport "os" "direct" ["os.path"]) = "from"
          /\ imp_module (mkImport "os" "direct" ["os.path"]) <> EmptyString
          /\ forallb (fun c => is_word c || is_char "." c)
               (L (imp_module (mkImport "os" "direct" ["os.path"]))) = true)).
Proof.
  assert (H : In (mkImport "os" "direct" ["os.path"]) (parse_python_imports_regex py_sample))
    by (vm_compute; left; reflexivity).
  split; [exact H|]. exact (parse_python_imports_regex_shape py_sample _ H).
Defined.
